(** * A minimal HTTP/1.1 listener: line reader, request parser, status line

    Shallow embedding of [server/util.go] (ReadLine) and of the server file
    (ReadRequest, parseRequestLine, validMethod, badStringError, HandleOK,
    HandleBadRequest, Response.Write, statusText), with the properties the
    specification states about them; then of the rest of the server that
    runs in one task (ValidateServerSetup, HandleGoodRequest and the loop of
    HandleConnection), with properties read off the code.

    Go strings are byte sequences: they are modelled as [list ascii].
    A [bufio.Reader] is modelled by the bytes its source still delivers and
    the error the source reports once they are used up. *)

From Stdlib Require Import ZArith Strings.String Strings.Ascii Numbers.DecimalString.
From stdpp Require Import base list gmap strings.

(** String literals are read as byte sequences. *)
Coercion list_ascii_of_string : string >-> list.

Definition CR : ascii := "013"%char.
Definition LF : ascii := "010"%char.
Definition SP : ascii := " "%char.
Definition CRLF : list ascii := [CR; LF].

(** ** Go library functions used by the program *)

Module strings.

(** [strings.HasPrefix(s, prefix)] *)
Fixpoint HasPrefix (s pre : list ascii) {struct pre} : bool :=
  match pre, s with
  | [], _ => true
  | _ :: _, [] => false
  | p :: pre', c :: s' => bool_decide (c = p) && HasPrefix s' pre'
  end.

(** [strings.HasSuffix(s, suffix)]:
    [len(s) >= len(suffix) && s[len(s)-len(suffix):] == suffix] *)
Definition HasSuffix (s suffix : list ascii) : bool :=
  (length suffix <=? length s)%nat
  && bool_decide (drop (length s - length suffix) s = suffix).

(** [strings.Index(s, substr)]: the index of the first instance of [substr]
    in [s]; Go's [-1] is [None]. *)
Fixpoint Index (s substr : list ascii) : option nat :=
  if HasPrefix s substr then Some 0
  else match s with
       | [] => None
       | _ :: s' => S <$> Index s' substr
       end.

(** The loop of [genSplit]: at most [n] more cuts. *)
Fixpoint genSplit_loop (n : nat) (s sep : list ascii) : list (list ascii) :=
  match n with
  | O => [s]
  | S n' =>
      match Index s sep with
      | None => [s]
      | Some m => take m s :: genSplit_loop n' (drop (m + length sep) s) sep
      end
  end.

(** [strings.SplitN(s, sep, n)] for a non-empty [sep] and [n >= 0] (the
    program calls it with [sep = " "] and [n = 2]): [n = 0] gives no
    field, and there are never more than [len(s) + 1] fields. *)
Definition SplitN (s sep : list ascii) (n : nat) : list (list ascii) :=
  match n with
  | O => []
  | S _ => genSplit_loop (Nat.min n (length s + 1) - 1) s sep
  end.

End strings.

(** [fmt.Sprintf("%v", i)] for an [int]: signed decimal.  No arithmetic is
    done on status codes, so the 64-bit [int] is an unbounded [Z] here. *)
Definition itoa (i : Z) : list ascii := NilZero.string_of_int (Z.to_int i).

(** ** Errors

    Errors built with [fmt.Errorf] keep the arguments of their format, so
    that the text carried by an error can be read back. *)
Inductive error : Type :=
| io_EOF                                   (* io.EOF *)
| net_Timeout                              (* a net.Error whose Timeout() holds *)
| io_failure (descr : list ascii)          (* any other error of the source *)
| could_not_parse (fields : list (list ascii))
    (* fmt.Errorf("could not parse the request line, got fields %v", fields) *)
| bad_string (what val : list ascii).      (* fmt.Errorf("%s %q", what, val) *)

(** ** The buffered reader *)

Record Reader : Type := mkReader {
  pending : list ascii;  (* bytes not read yet *)
  fault : error          (* what the source reports after them *)
}.

(** Computations on a reader: the result, the reader afterwards and the
    lines printed on standard output; [None] is a loop that does not end. *)
Definition M (A : Type) : Type := Reader -> option (A * Reader * list (list ascii)).

Definition ret {A} (a : A) : M A := fun br => Some (a, br, []).

Definition bind {A B} (m : M A) (k : A -> M B) : M B :=
  fun br =>
    match m br with
    | None => None
    | Some (a, br1, out1) =>
        match k a br1 with
        | None => None
        | Some (b, br2, out2) => Some (b, br2, out1 ++ out2)
        end
    end.

Definition diverge {A} : M A := fun _ => None.

Notation "'let*' x ':=' m 'in' k" := (bind m (fun x => k))
  (at level 10, x pattern, m at level 200, k at level 200).

(** [fmt.Println(a, b)]: the operands separated by a space, then a newline. *)
Definition Println (a b : list ascii) : M unit :=
  fun br => Some (tt, br, [a ++ [SP] ++ b ++ [LF]]).

(** [br.ReadString(delim)]: the bytes up to and including the first [delim];
    without one, all the bytes left and the error of the source. *)
Definition ReadString (delim : ascii) : M (list ascii * option error) :=
  fun br =>
    match strings.Index (pending br) [delim] with
    | Some i =>
        Some ((take (S i) (pending br), None),
              mkReader (drop (S i) (pending br)) (fault br), [])
    | None =>
        Some ((pending br, Some (fault br)), mkReader [] (fault br), [])
    end.

(** ** server/util.go *)

(** The [for] loop of [ReadLine]; [line] is the text accumulated so far. *)
Fixpoint ReadLine_loop (fuel : nat) (line : list ascii)
  : M (list ascii * option error) :=
  match fuel with
  | O => diverge
  | S fuel' =>
      let* (s, err) := ReadString LF in
      let line := line ++ s in
      match err with
      | Some e => ret (line, Some e)
      | None =>
          if strings.HasSuffix line CRLF
          then ret (take (length line - 2) line, None)
          else ReadLine_loop fuel' line
      end
  end.

(** Every turn of the loop that goes on has read at least one byte, so one
    more turn than there are bytes is enough ([ReadLine_returns]). *)
Definition ReadLine : M (list ascii * option error) :=
  fun br => ReadLine_loop (S (length (pending br))) [] br.

(** ** The server *)

Definition responseProto : list ascii := "HTTP/1.1".
Definition statusOK : Z := 200.
Definition statusMethodNotAllowed : Z := 405.

Definition statusText : gmap Z (list ascii) :=
  <[statusOK := "OK" : list ascii]>
    (<[statusMethodNotAllowed := "Method Not Allowed" : list ascii]> ∅).

Record Request : Type := mkRequest { Method : list ascii }.

Record Response : Type := mkResponse {
  StatusCode : Z;
  Proto : list ascii;
  FilePath : list ascii
}.

Definition init (res : Response) : Response :=
  mkResponse (StatusCode res) responseProto (FilePath res).

Definition HandleOK (res : Response) : Response :=
  let res := init res in
  mkResponse statusOK (Proto res) (FilePath res).

Definition HandleBadRequest (res : Response) : Response :=
  let res := init res in
  let res := mkResponse statusMethodNotAllowed (Proto res) (FilePath res) in
  mkResponse (StatusCode res) (Proto res) [].

Definition parseRequestLine (line : list ascii) : list ascii * option error :=
  let fields := strings.SplitN line " " 2 in
  if negb (length fields =? 2)%nat then ([], Some (could_not_parse fields))
  else (nth 0 fields [], None).

Definition validMethod (method : list ascii) : bool :=
  bool_decide (method = "GET").

Definition badStringError (what val : list ascii) : error := bad_string what val.

(** The header loop of [ReadRequest]: [Some e] is its [return nil, err],
    [None] its [break]. *)
Fixpoint ReadRequest_headers (fuel : nat) : M (option error) :=
  match fuel with
  | O => diverge
  | S fuel' =>
      let* (line, err) := ReadLine in
      match err with
      | Some e => ret (Some e)
      | None =>
          if bool_decide (line = [])
          then ret None
          else let* _ := Println "Read line from request" line in
               ReadRequest_headers fuel'
      end
  end.

Definition ReadRequest : M (option Request * option error) :=
  let* (line, err) := ReadLine in
  match err with
  | Some e => ret (None, Some e)
  | None =>
      let '(method, err) := parseRequestLine line in
      match err with
      | Some _ => ret (None, Some (badStringError "malformed start line" line))
      | None =>
          if negb (validMethod method)
          then ret (None, Some (badStringError "invalid method" method))
          else
            let* herr := (fun br => ReadRequest_headers (S (length (pending br))) br) in
            match herr with
            | Some e => ret (None, Some e)
            | None => ret (Some (mkRequest method), None)
            end
      end
  end.

(** ** The response writer *)

(** An [io.Writer]: the bytes it has taken, and the error it answers every
    write with when it is broken. *)
Record Writer : Type := mkWriter {
  sent : list ascii;
  broken : option error
}.

(** A [bufio.Writer] over an [io.Writer], with the bytes it still holds. *)
Record BufWriter : Type := mkBufWriter {
  wr : Writer;
  buf : list ascii
}.

Definition defaultBufSize : nat := 4096.

Definition NewWriter (w : Writer) : BufWriter := mkBufWriter w [].

(** [bw.Flush()]: the bytes held go to the writer underneath, or its error
    comes back. *)
Definition Flush (bw : BufWriter) : option error * BufWriter :=
  match broken (wr bw) with
  | Some e => (Some e, bw)
  | None => (None, mkBufWriter (mkWriter (sent (wr bw) ++ buf bw) None) [])
  end.

(** [bw.WriteString(s)]: a string that fits in the buffer is kept there; one
    that does not makes the buffer go through to the writer underneath. *)
Definition WriteString (s : list ascii) (bw : BufWriter) : option error * BufWriter :=
  let bw' := mkBufWriter (wr bw) (buf bw ++ s) in
  if (length (buf bw') <=? defaultBufSize)%nat then (None, bw') else Flush bw'.

Definition Write (res : Response) (w : Writer) : option error * Writer :=
  let bw := NewWriter w in
  let statusLine :=
    Proto res ++ " " ++ itoa (StatusCode res) ++ " "
      ++ default [] (statusText !! StatusCode res) ++ CRLF in
  let '(err, bw) := WriteString statusLine bw in
  match err with
  | Some e => (Some e, wr bw)
  | None =>
      let '(err, bw) := Flush bw in
      match err with
      | Some e => (Some e, wr bw)
      | None => (None, wr bw)
      end
  end.

(** ** The server and its connections *)

Record Server : Type := mkServer {
  Addr : list ascii;     (* "host:port" *)
  DocRoot : list ascii
}.

(** What [os.Stat] says of a path: the file information, or an error and no
    file information (nil). *)
Record FileInfo : Type := mkFileInfo { IsDir : bool }.

(** The errors of [ValidateServerSetup]: the error of [os.Stat] itself, or
    [fmt.Errorf("doc root %q is not a directory", root)]. *)
Inductive setup_error : Type :=
| stat_error (e : error)
| not_a_directory (root : list ascii).

(** A call returns, or panics at run time. *)
Inductive outcome (A : Type) : Type :=
| returns (a : A)
| panics.
Arguments returns {A} a.
Arguments panics {A}.

Section filesystem.

(** The file system, as [os.Stat] and [os.IsNotExist] see it. *)
Variable os_Stat : list ascii → FileInfo + error.
Variable os_IsNotExist : error → bool.

(** [fi] is nil when [os.Stat] fails, and [os.IsNotExist(nil)] is false. *)
Definition ValidateServerSetup (s : Server) : outcome (option setup_error) :=
  match os_Stat (DocRoot s) with
  | inr err =>
      if os_IsNotExist err then returns (Some (stat_error err))
      else panics (* fi.IsDir() on a nil fi *)
  | inl fi =>
      if negb (IsDir fi) then returns (Some (not_a_directory (DocRoot s)))
      else returns None
  end.

End filesystem.

(** The lines of the log ([log.Printf]), by the call that writes them. *)
Inductive log_entry : Type :=
| log_deadline_failed                 (* "Failed to set timeout for connection %v" *)
| log_closed_by_peer                  (* "Connection closed by %v" *)
| log_timed_out                       (* "Connection to %v timed out" *)
| log_bad_request (e : error)         (* "Handle bad request for error: %v" *)
| log_good_request (req : option Request). (* "Handle good request: %v" *)

(** What goes to standard output: the lines of [ReadRequest], and the write
    errors printed with [fmt.Println(err)]. *)
Inductive stdout_entry : Type :=
| out_line (l : list ascii)
| out_error (e : error).

(** A connection when [HandleConnection] has returned. *)
Record Served : Type := mkServed {
  served_reader : Reader;             (* what is left unread *)
  served_writer : Writer;             (* what the peer was sent *)
  served_closed : bool;               (* conn.Close() was called *)
  served_stdout : list stdout_entry;
  served_log : list log_entry
}.

(** [errors.Is(err, io.EOF)] *)
Definition is_EOF (err : option error) : bool :=
  match err with Some io_EOF => true | _ => false end.

(** [err.(net.Error)] with [err.Timeout()] *)
Definition is_Timeout (err : option error) : bool :=
  match err with Some net_Timeout => true | _ => false end.

Section connection.

(** [filepath.Join] *)
Variable filepath_Join : list ascii → list ascii → list ascii.

Definition HandleGoodRequest (s : Server) : Response :=
  let res := mkResponse 0 [] [] in
  let res := HandleOK res in
  mkResponse (StatusCode res) (Proto res) (filepath_Join (DocRoot s) "hello-world.txt").

(** The [for] loop of [HandleConnection].  [SetReadDeadline n] is the error
    of the [n]-th call of [conn.SetReadDeadline]; the deadline itself shows
    as the error that ends the bytes of the reader.  [out] and [log] are
    what was printed and logged so far, [n] the number of turns made. *)
Fixpoint HandleConnection_loop (s : Server) (SetReadDeadline : nat → option error)
    (fuel n : nat) (br : Reader) (conn : Writer)
    (out : list stdout_entry) (log : list log_entry) : option Served :=
  match fuel with
  | O => None
  | S fuel' =>
      match SetReadDeadline n with
      | Some _ => Some (mkServed br conn true out (log ++ [log_deadline_failed]))
      | None =>
          match ReadRequest br with
          | None => None
          | Some ((req, err), br, lines) =>
              let out := out ++ (out_line <$> lines) in
              if is_EOF err
              then Some (mkServed br conn true out (log ++ [log_closed_by_peer]))
              else if is_Timeout err
              then Some (mkServed br conn true out (log ++ [log_timed_out]))
              else
                match err with
                | Some e =>
                    let res := HandleBadRequest (mkResponse 0 [] []) in
                    let '(_, conn) := Write res conn in
                    Some (mkServed br conn true out (log ++ [log_bad_request e]))
                | None =>
                    let log := log ++ [log_good_request req] in
                    let res := HandleGoodRequest s in
                    let '(err, conn) := Write res conn in
                    let out := match err with
                               | Some e => out ++ [out_error e]
                               | None => out
                               end in
                    HandleConnection_loop s SetReadDeadline fuel' (S n) br conn out log
                end
          end
      end
  end.

(** A turn that goes on has read a whole request, so one more turn than
    there are bytes is enough. *)
Definition HandleConnection (s : Server) (SetReadDeadline : nat → option error)
    (br : Reader) (conn : Writer) : option Served :=
  HandleConnection_loop s SetReadDeadline (S (length (pending br))) 0 br conn [] [].

End connection.

(** ** Vocabulary of the statements *)

(** What [ReadLine] does, by the first CRLF of the bytes left: the line
    before it, the reader after it; or all the bytes and the error. *)
Definition line_of (data : list ascii) (f : error)
  : list ascii * option error * Reader :=
  match strings.Index data CRLF with
  | Some k => ((take k data, None), mkReader (drop (k + 2) data) f)
  | None => ((data, Some f), mkReader [] f)
  end.

(** The header lines of a request, as they are on the wire. *)
Definition header_block (hs : list (list ascii)) : list ascii :=
  foldr (λ h acc, h ++ CRLF ++ acc) [] hs.

(** A header line: not empty, and without CRLF inside. *)
Definition header_line (h : list ascii) : Prop :=
  h ≠ [] ∧ strings.Index h CRLF = None.

(** What the header loop prints for the lines it throws away. *)
Definition printed (hs : list (list ascii)) : list (list ascii) :=
  map (λ h, "Read line from request" ++ [SP] ++ h ++ [LF]) hs.

(** What [ReadRequest] does once it has read the start line. *)
Definition after_start_line (line : list ascii) : M (option Request * option error) :=
  let '(method, err) := parseRequestLine line in
  match err with
  | Some _ => ret (None, Some (badStringError "malformed start line" line))
  | None =>
      if negb (validMethod method)
      then ret (None, Some (badStringError "invalid method" method))
      else
        let* herr := (fun br => ReadRequest_headers (S (length (pending br))) br) in
        match herr with
        | Some e => ret (None, Some e)
        | None => ret (Some (mkRequest method), None)
        end
  end.

(** A start line that [ReadRequest] accepts: a line (no CRLF inside) whose
    first field is "GET". *)
Definition start_line (line : list ascii) : Prop :=
  strings.Index line CRLF = None ∧ parseRequestLine line = ("GET" : list ascii, None).

(** One whole request on the wire. *)
Definition request_bytes (line : list ascii) (hs : list (list ascii)) : list ascii :=
  line ++ CRLF ++ header_block hs ++ CRLF.

(** Two calls in a row on the same reader, as the connection loop and the
    tests of the repository make them. *)
Definition ReadRequest_twice
  : M ((option Request * option error) * (option Request * option error)) :=
  let* r1 := ReadRequest in
  let* r2 := ReadRequest in
  ret (r1, r2).

(** The two status lines of the server. *)
Definition line_OK : list ascii := "HTTP/1.1 200 OK" ++ CRLF.
Definition line_MethodNotAllowed : list ascii := "HTTP/1.1 405 Method Not Allowed" ++ CRLF.

(** A request that is accepted, as its start line and its header lines. *)
Definition valid_request (r : list ascii * list (list ascii)) : Prop :=
  start_line r.1 ∧ Forall header_line r.2.

(** Requests one after the other on the wire. *)
Definition requests_bytes (reqs : list (list ascii * list (list ascii))) : list ascii :=
  foldr (λ r acc, request_bytes r.1 r.2 ++ acc) [] reqs.

(** What serving these requests puts on standard output: the header lines
    of each, then the error of the write when the writer is broken. *)
Definition requests_stdout (conn : Writer) (reqs : list (list ascii * list (list ascii)))
  : list stdout_entry :=
  concat (map (λ r, (out_line <$> printed r.2)
                      ++ match broken conn with
                         | Some e => [out_error e]
                         | None => []
                         end) reqs).

(** The writer after [n] requests were answered. *)
Definition answered (conn : Writer) (n : nat) : Writer :=
  match broken conn with
  | Some _ => conn
  | None => mkWriter (sent conn ++ concat (replicate n line_OK)) None
  end.

(** The error [ReadRequest] has for a start line, if it has one. *)
Definition rejection (line : list ascii) : option error :=
  match parseRequestLine line with
  | (_, Some _) => Some (badStringError "malformed start line" line)
  | (method, None) =>
      if validMethod method then None
      else Some (badStringError "invalid method" method)
  end.

(** The line logged when a request could not be read. *)
Definition log_of_error (e : error) : log_entry :=
  match e with
  | io_EOF => log_closed_by_peer
  | net_Timeout => log_timed_out
  | _ => log_bad_request e
  end.

(** The source has ended, or the deadline has passed. *)
Definition quiet_end (e : error) : bool :=
  match e with
  | io_EOF | net_Timeout => true
  | _ => false
  end.

(** ** Sanity checks on the tests of the repository *)

Example simple_GET :
  ReadRequest (mkReader ("GET /index.html HTTP/1.1" ++ CRLF ++ "Host: test" ++ CRLF ++ CRLF) io_EOF)
  = Some ((Some (mkRequest "GET"), None), mkReader [] io_EOF,
          ["Read line from request Host: test" ++ [LF]]).
Proof. vm_compute. reflexivity. Qed.

Example simple_POST :
  ReadRequest (mkReader ("POST /index.html HTTP/1.1" ++ CRLF ++ "Host: test" ++ CRLF ++ CRLF) io_EOF)
  = Some ((None, Some (bad_string "invalid method" "POST")),
          mkReader ("Host: test" ++ CRLF ++ CRLF) io_EOF, []).
Proof. vm_compute. reflexivity. Qed.

(** ** Facts about the library functions *)

Section index_facts.

Import strings.

Lemma HasPrefix_byte (c x : ascii) (s : list ascii) :
  HasPrefix (x :: s) [c] = bool_decide (x = c).
Proof. simpl. apply andb_true_r. Qed.

Lemma HasPrefix_CRLF_cons (c : ascii) (s : list ascii) :
  HasPrefix (c :: s) CRLF = bool_decide (c = CR) && bool_decide (head s = Some LF).
Proof.
  destruct s as [|y s]; simpl.
  - rewrite andb_false_r. reflexivity.
  - rewrite andb_true_r. f_equal. apply bool_decide_ext. split; congruence.
Qed.

(** [Index] finds an occurrence, and no earlier position has one. *)
Lemma Index_Some_first (s sep : list ascii) (k : nat) :
  Index s sep = Some k →
  HasPrefix (drop k s) sep = true ∧ ∀ j, j < k → HasPrefix (drop j s) sep = false.
Proof.
  revert k. induction s as [|c s IH]; intros k; simpl.
  - destruct (HasPrefix [] sep) eqn:E; [|discriminate].
    intros [= <-]. split; [exact E | intros; lia].
  - destruct (HasPrefix (c :: s) sep) eqn:E.
    + intros [= <-]. split; [exact E | intros; lia].
    + destruct (Index s sep) as [k'|] eqn:Ek; [|discriminate].
      intros [= <-]. destruct (IH k' eq_refl) as [H1 H2].
      split; [exact H1|]. intros [|j] Hj; [exact E|]. apply H2. lia.
Qed.

Lemma Index_byte_Some (s : list ascii) (c : ascii) (i : nat) :
  Index s [c] = Some i →
  ∃ s0 rest, s = s0 ++ c :: rest ∧ length s0 = i ∧ c ∉ s0.
Proof.
  revert i. induction s as [|x s IH]; intros i; [discriminate|].
  cbn [Index]. rewrite HasPrefix_byte. case_bool_decide as Hx.
  - intros [= <-]. exists [], s. subst x. split_and!; [done..|]. apply not_elem_of_nil.
  - destruct (Index s [c]) as [i'|]; [|discriminate]. intros [= <-].
    destruct (IH i' eq_refl) as (s0 & rest & -> & Hlen & Hnot).
    exists (x :: s0), rest. split_and!; [done|simpl; lia|].
    rewrite not_elem_of_cons. split; [congruence|done].
Qed.

Lemma Index_byte_None (s : list ascii) (c : ascii) :
  Index s [c] = None → c ∉ s.
Proof.
  induction s as [|x s IH]; [intros _; apply not_elem_of_nil|].
  cbn [Index]. rewrite HasPrefix_byte. case_bool_decide as Hx; [discriminate|].
  destruct (Index s [c]); [discriminate|]. intros _.
  rewrite not_elem_of_cons. split; [congruence|auto].
Qed.

Lemma Index_CRLF_no_LF (s : list ascii) : LF ∉ s → Index s CRLF = None.
Proof.
  induction s as [|x s IH]; [reflexivity|].
  rewrite not_elem_of_cons. intros [Hx Hs].
  cbn [Index]. rewrite HasPrefix_CRLF_cons, (IH Hs).
  destruct s as [|y s]; simpl.
  - rewrite andb_false_r. reflexivity.
  - rewrite not_elem_of_cons in Hs. destruct Hs as [Hy _].
    rewrite (bool_decide_eq_false_2 (Some y = Some LF)) by congruence.
    rewrite andb_false_r. reflexivity.
Qed.

Lemma Index_CRLF_at (p rest : list ascii) :
  LF ∉ p → Index (p ++ CR :: LF :: rest) CRLF = Some (length p).
Proof.
  induction p as [|x p IH]; [reflexivity|].
  rewrite not_elem_of_cons. intros [Hx Hp].
  change ((x :: p) ++ CR :: LF :: rest) with (x :: (p ++ CR :: LF :: rest)).
  cbn [Index]. rewrite HasPrefix_CRLF_cons, (IH Hp).
  assert (head (p ++ CR :: LF :: rest) ≠ Some LF) as Hh.
  { destruct p as [|y p]; simpl; [discriminate|].
    rewrite not_elem_of_cons in Hp. intros [= ->]. tauto. }
  rewrite (bool_decide_eq_false_2 _ Hh), andb_false_r. reflexivity.
Qed.

Lemma Index_CRLF_past (s0 rest : list ascii) :
  LF ∉ s0 → last s0 ≠ Some CR →
  Index (s0 ++ LF :: rest) CRLF = (λ k, S (length s0) + k) <$> Index rest CRLF.
Proof.
  induction s0 as [|x s0 IH]; intros Hnot Hlast.
  - simpl. destruct (Index rest CRLF); reflexivity.
  - rewrite not_elem_of_cons in Hnot. destruct Hnot as [Hx Hs0].
    change ((x :: s0) ++ LF :: rest) with (x :: (s0 ++ LF :: rest)).
    cbn [Index]. rewrite HasPrefix_CRLF_cons.
    assert (bool_decide (x = CR) && bool_decide (head (s0 ++ LF :: rest) = Some LF) = false) as ->.
    { destruct s0 as [|y s0]; simpl.
      - simpl in Hlast. rewrite bool_decide_eq_false_2; [reflexivity|congruence].
      - rewrite not_elem_of_cons in Hs0.
        rewrite (bool_decide_eq_false_2 (Some y = Some LF)) by (intros [= ->]; tauto).
        apply andb_false_r. }
    rewrite IH; [|done|].
    + destruct (Index rest CRLF); reflexivity.
    + destruct s0; [discriminate|]. exact Hlast.
Qed.

Lemma HasSuffix_CRLF (l : list ascii) :
  HasSuffix (l ++ [LF]) CRLF = bool_decide (last l = Some CR).
Proof.
  unfold HasSuffix.
  destruct l as [|x l _] using rev_ind; [reflexivity|].
  rewrite last_snoc, !length_app. cbn [length CRLF].
  replace (length l + 1 + 1 - 2) with (length l) by lia.
  rewrite <- app_assoc, drop_app_length.
  replace (2 <=? length l + 1 + 1)%nat with true by (symmetry; apply Nat.leb_le; lia).
  cbn [andb app]. apply bool_decide_ext.
  unfold CRLF. split; intros [= ->]; reflexivity.
Qed.

End index_facts.

(** ** The line reader *)

Lemma take_through (s0 rest : list ascii) (c : ascii) :
  take (S (length s0)) (s0 ++ c :: rest) = s0 ++ [c].
Proof.
  rewrite (cons_middle c s0 rest), app_assoc.
  apply take_app_length'. rewrite length_app. simpl. lia.
Qed.

Lemma drop_through (s0 rest : list ascii) (c : ascii) :
  drop (S (length s0)) (s0 ++ c :: rest) = rest.
Proof.
  rewrite (cons_middle c s0 rest), app_assoc.
  apply drop_app_length'. rewrite length_app. simpl. lia.
Qed.

Lemma ReadLine_loop_spec (fuel : nat) :
  ∀ (acc data : list ascii) (f : error),
    length data < fuel → last acc ≠ Some CR →
    ReadLine_loop fuel acc (mkReader data f)
    = Some ((acc ++ (line_of data f).1.1, (line_of data f).1.2), (line_of data f).2, []).
Proof.
  induction fuel as [|fuel IH]; intros acc data f Hlen Hacc; [lia|].
  cbn [ReadLine_loop]. unfold bind, ReadString. cbn [pending fault].
  destruct (strings.Index data [LF]) as [i|] eqn:Ei.
  - apply Index_byte_Some in Ei as (s0 & rest & -> & <- & Hs0).
    rewrite take_through, drop_through.
    rewrite (app_assoc acc s0 [LF]), HasSuffix_CRLF.
    case_bool_decide as Hlast.
    + (* the piece ends in CR LF: the line is complete *)
      assert (∃ p, s0 = p ++ [CR]) as [p ->].
      { destruct s0 as [|c s0 _] using rev_ind.
        - rewrite app_nil_r in Hlast. contradiction.
        - rewrite app_assoc, last_snoc in Hlast. injection Hlast as ->. eauto. }
      rewrite not_elem_of_app in Hs0. destruct Hs0 as [Hp _].
      unfold line_of.
      rewrite <- (app_assoc p [CR] (LF :: rest)). cbn [app].
      rewrite (Index_CRLF_at p rest Hp). cbn [fst snd ret].
      rewrite take_app_length.
      replace (drop (length p + 2) (p ++ CR :: LF :: rest)) with rest.
      2:{ rewrite drop_app_add. reflexivity. }
      replace (take (length ((acc ++ p ++ [CR]) ++ [LF]) - 2) ((acc ++ p ++ [CR]) ++ [LF]))
        with (acc ++ p); [reflexivity|].
      rewrite !length_app. cbn [length].
      replace (length acc + (length p + 1) + 1 - 2) with (length (acc ++ p))
        by (rewrite length_app; lia).
      rewrite <- !app_assoc, (app_assoc acc p). symmetry. apply take_app_length.
    + (* no CR before this LF: go round again *)
      assert (last s0 ≠ Some CR) as Hs0last.
      { destruct s0 as [|c s0 _] using rev_ind; [discriminate|].
        rewrite app_assoc, last_snoc in Hlast. rewrite last_snoc. exact Hlast. }
      rewrite IH.
      2:{ rewrite length_app in Hlen. simpl in Hlen. lia. }
      2:{ rewrite last_snoc. discriminate. }
      unfold line_of. rewrite (Index_CRLF_past s0 rest Hs0 Hs0last).
      destruct (strings.Index rest CRLF) as [k|]; cbn [fmap option_fmap option_map fst snd app].
      * rewrite <- !app_assoc. cbn [app].
        replace (S (length s0) + k) with (length s0 + S k) by lia.
        rewrite take_app_add. cbn [take].
        replace (length s0 + S k + 2) with (length s0 + S (k + 2)) by lia.
        rewrite drop_app_add. reflexivity.
      * rewrite <- !app_assoc. reflexivity.
  - (* no LF left: everything read so far comes back with the error *)
    apply Index_byte_None in Ei. unfold line_of.
    rewrite (Index_CRLF_no_LF data Ei). reflexivity.
Qed.

Lemma ReadLine_spec (data : list ascii) (f : error) :
  ReadLine (mkReader data f) = Some (line_of data f, []).
Proof.
  unfold ReadLine. cbn [pending].
  rewrite ReadLine_loop_spec; [|lia|discriminate].
  cbn [app]. destruct (line_of data f) as [[l e] br]. reflexivity.
Qed.

Section line_facts.

Import strings.

Lemma HasPrefix_split (s pre : list ascii) :
  HasPrefix s pre = true → s = pre ++ drop (length pre) s.
Proof.
  revert s. induction pre as [|p pre IH]; intros s; [reflexivity|].
  destruct s as [|c s]; [discriminate|]. cbn [HasPrefix].
  rewrite andb_true_iff, bool_decide_eq_true. intros [-> Hs].
  cbn [length drop app]. f_equal. apply IH, Hs.
Qed.

Lemma Index_Some_split (s sep : list ascii) (k : nat) :
  Index s sep = Some k → s = take k s ++ sep ++ drop (k + length sep) s.
Proof.
  intros Hk. apply Index_Some_first in Hk as [Hk _].
  apply HasPrefix_split in Hk. rewrite drop_drop in Hk.
  rewrite <- Hk. symmetry. apply take_drop.
Qed.

Lemma Index_CRLF_length (s : list ascii) (k : nat) :
  Index s CRLF = Some k → k + 2 ≤ length s.
Proof.
  intros Hk. apply Index_Some_split in Hk.
  apply (f_equal length) in Hk.
  rewrite !length_app, length_take in Hk. cbn [length CRLF] in Hk. lia.
Qed.

(** A text without CRLF, then CRLF: that CRLF is the first one. *)
Lemma Index_CRLF_first (p rest : list ascii) :
  Index p CRLF = None → Index (p ++ CRLF ++ rest) CRLF = Some (length p).
Proof.
  induction p as [|c p IH]; [reflexivity|].
  cbn [Index]. rewrite HasPrefix_CRLF_cons.
  destruct (bool_decide (c = CR) && bool_decide (head p = Some LF)) eqn:E; [discriminate|].
  destruct (Index p CRLF) eqn:Ep; [discriminate|]. intros _.
  change ((c :: p) ++ CRLF ++ rest) with (c :: (p ++ CRLF ++ rest)).
  cbn [Index]. rewrite HasPrefix_CRLF_cons, (IH eq_refl).
  assert (bool_decide (c = CR) && bool_decide (head (p ++ CRLF ++ rest) = Some LF) = false) as ->;
    [|reflexivity].
  destruct p as [|y p]; [|exact E].
  cbn. apply andb_false_r.
Qed.

Lemma line_of_first (line rest : list ascii) (f : error) :
  Index line CRLF = None →
  line_of (line ++ CRLF ++ rest) f = ((line, None), mkReader rest f).
Proof.
  intros Hline. unfold line_of. rewrite (Index_CRLF_first line rest Hline).
  rewrite take_app_length.
  replace (length line + 2) with (length (line ++ CRLF)) by (rewrite length_app; reflexivity).
  rewrite app_assoc, drop_app_length. reflexivity.
Qed.

End line_facts.

(** C2 (as amended): when the first CRLF of the bytes left is at position
    [k], [ReadLine] returns exactly the [k] bytes before it, with no error
    and nothing printed, and leaves the reader exactly after that CRLF; the
    bytes left were that line, the CRLF and what the reader still holds.
    Only this one terminator is removed: the line returned may itself end in
    a carriage return or a line feed. *)
Theorem ReadLine_first_CRLF (data : list ascii) (k : nat) (f : error) :
  strings.Index data CRLF = Some k →
  ReadLine (mkReader data f)
  = Some ((take k data, None), mkReader (drop (k + 2) data) f, [])
  ∧ data = take k data ++ CRLF ++ drop (k + 2) data.
Proof.
  intros Hk. split.
  - rewrite ReadLine_spec. unfold line_of. rewrite Hk. reflexivity.
  - apply (Index_Some_split data CRLF k Hk).
Qed.

Lemma ReadLine_first_CRLF_witness :
  ReadLine (mkReader ("Host: test" ++ CRLF ++ CRLF) io_EOF)
  = Some ((take 10 ("Host: test" ++ CRLF ++ CRLF), None),
          mkReader (drop (10 + 2) ("Host: test" ++ CRLF ++ CRLF)) io_EOF, [])
  ∧ "Host: test" ++ CRLF ++ CRLF
    = take 10 ("Host: test" ++ CRLF ++ CRLF) ++ CRLF
        ++ drop (10 + 2) ("Host: test" ++ CRLF ++ CRLF).
Proof.
  apply (ReadLine_first_CRLF ("Host: test" ++ CRLF ++ CRLF) 10 io_EOF).
  vm_compute. reflexivity.
Defined.

(** C2 as the specification words it fails: in the bytes "a", CR, CR, LF the
    first CRLF is at position 2, and the line returned is "a", CR, which
    does end in a carriage return. *)
Lemma ReadLine_line_may_end_in_CR :
  strings.Index ("a" ++ [CR] ++ CRLF) CRLF = Some 2
  ∧ ReadLine (mkReader ("a" ++ [CR] ++ CRLF) io_EOF)
    = Some (("a" ++ [CR], None), mkReader [] io_EOF, [])
  ∧ last ("a" ++ [CR]) = Some CR.
Proof. vm_compute. repeat split. Qed.

(** C5: exactly CRLF ends a line.  [ReadLine] always returns, and either it
    returns a line without error, and then the bytes it consumed are that
    line followed by CR LF, at the first CRLF of the bytes left (never at a
    line feed that no carriage return precedes); or the bytes left hold no
    CRLF, and then all of them come back, together with the error the source
    reports at its end, the reader being used up. *)
Theorem ReadLine_only_CRLF_terminates (data : list ascii) (f : error) :
  ∃ line err rest,
    ReadLine (mkReader data f) = Some ((line, err), mkReader rest f, [])
    ∧ ((err = None ∧ data = line ++ CRLF ++ rest
        ∧ strings.Index data CRLF = Some (length line))
       ∨ (err = Some f ∧ line = data ∧ rest = []
          ∧ strings.Index data CRLF = None)).
Proof.
  rewrite ReadLine_spec. unfold line_of.
  destruct (strings.Index data CRLF) as [k|] eqn:Hk.
  - exists (take k data), None, (drop (k + 2) data). split; [reflexivity|]. left.
    pose proof (Index_CRLF_length _ _ Hk) as Hlen.
    split_and!; [reflexivity|apply (Index_Some_split data CRLF k Hk)|].
    rewrite length_take. f_equal. lia.
  - exists data, (Some f), []. split; [reflexivity|]. right. done.
Qed.

(** A line feed alone does not end a line. *)
Example ReadLine_bare_LF :
  ReadLine (mkReader ("abc" ++ [LF] ++ "def") io_EOF)
  = Some (("abc" ++ [LF] ++ "def", Some io_EOF), mkReader [] io_EOF, []).
Proof. vm_compute. reflexivity. Qed.

(** C6: when the source ends or fails before any CRLF, [ReadLine] returns
    what it has accumulated, which is exactly the unterminated bytes that
    were left, together with the error of the source; on a source that is
    already at its end this is the empty text with the end-of-stream
    error. *)
Theorem ReadLine_truncated (data : list ascii) (f : error) :
  strings.Index data CRLF = None →
  ReadLine (mkReader data f) = Some ((data, Some f), mkReader [] f, [])
  ∧ ReadLine (mkReader [] io_EOF) = Some (([], Some io_EOF), mkReader [] io_EOF, []).
Proof.
  intros Hnone. split; [|reflexivity].
  rewrite ReadLine_spec. unfold line_of. rewrite Hnone. reflexivity.
Qed.

Lemma ReadLine_truncated_witness :
  ReadLine (mkReader "Host: te" io_EOF)
  = Some (("Host: te" : list ascii, Some io_EOF), mkReader [] io_EOF, [])
  ∧ ReadLine (mkReader [] io_EOF) = Some (([], Some io_EOF), mkReader [] io_EOF, []).
Proof.
  apply (ReadLine_truncated "Host: te" io_EOF). vm_compute. reflexivity.
Defined.

(** ** The request parser *)

Lemma SplitN_space_2 (line : list ascii) :
  strings.SplitN line " " 2
  = match strings.Index line " " with
    | Some i => [take i line; drop (i + 1) line]
    | None => [line]
    end.
Proof.
  unfold strings.SplitN. destruct line as [|c line]; [reflexivity|].
  replace (Nat.min 2 (length (c :: line) + 1) - 1) with 1
    by (cbn [length]; lia).
  cbn [strings.genSplit_loop].
  destruct (strings.Index (c :: line) " "); reflexivity.
Qed.

(** The start line is rejected as malformed exactly when it has no space. *)
Lemma parseRequestLine_spec (line : list ascii) :
  parseRequestLine line
  = match strings.Index line " " with
    | Some i => (take i line, None)
    | None => ([], Some (could_not_parse [line]))
    end.
Proof.
  unfold parseRequestLine. rewrite SplitN_space_2.
  destruct (strings.Index line " "); reflexivity.
Qed.

Lemma validMethod_GET (method : list ascii) :
  validMethod method = true ↔ method = "GET".
Proof. unfold validMethod. apply bool_decide_eq_true. Qed.

Lemma length_header_block_app (hs : list (list ascii)) (rest : list ascii) :
  length hs ≤ length (header_block hs ++ rest).
Proof.
  induction hs as [|h hs IH]; cbn [header_block foldr length]; [lia|].
  fold (header_block hs). rewrite <- !app_assoc, !length_app.
  rewrite length_app in IH. cbn [length CRLF]. lia.
Qed.

(** The header loop goes through well-formed header lines one by one. *)
Lemma ReadRequest_headers_block (hs : list (list ascii)) :
  Forall header_line hs →
  ∀ (fuel : nat) (k : list ascii) (f : error),
    ReadRequest_headers (length hs + fuel) (mkReader (header_block hs ++ k) f)
    = match ReadRequest_headers fuel (mkReader k f) with
      | Some (r, br, out) => Some (r, br, printed hs ++ out)
      | None => None
      end.
Proof.
  induction 1 as [|h hs [Hne Hh] _ IH]; intros fuel k f.
  - cbn [length header_block foldr printed map app Nat.add].
    destruct (ReadRequest_headers fuel _) as [[[r br] out]|]; reflexivity.
  - cbn [length header_block foldr Nat.add]. fold (header_block hs).
    cbn [ReadRequest_headers]. unfold bind at 1.
    rewrite <- !app_assoc, ReadLine_spec, (line_of_first h _ f Hh).
    rewrite bool_decide_eq_false_2 by exact Hne.
    unfold bind, Println. rewrite IH.
    destruct (ReadRequest_headers fuel _) as [[[r br] out]|]; reflexivity.
Qed.

(** The header loop always returns: every turn that goes on has read a
    whole line, CRLF included. *)
Lemma ReadRequest_headers_returns (fuel : nat) :
  ∀ (data : list ascii) (f : error),
    length data < fuel →
    ∃ r rest out,
      ReadRequest_headers fuel (mkReader data f) = Some (r, mkReader rest f, out).
Proof.
  induction fuel as [|fuel IH]; intros data f Hlen; [lia|].
  cbn [ReadRequest_headers]. unfold bind at 1. rewrite ReadLine_spec.
  unfold line_of. destruct (strings.Index data CRLF) as [k|] eqn:Hk.
  - case_bool_decide as Hempty; [cbn; eauto|].
    unfold bind, Println.
    apply Index_CRLF_length in Hk.
    destruct (IH (drop (k + 2) data) f) as (r & rest & out & ->); [|eauto].
    rewrite length_drop. lia.
  - cbn. eauto.
Qed.

Lemma ReadRequest_headers_end (n : nat) (rest : list ascii) (f : error) :
  ReadRequest_headers (S n) (mkReader (CRLF ++ rest) f)
  = Some (None, mkReader rest f, []).
Proof.
  cbn [ReadRequest_headers]. unfold bind.
  rewrite ReadLine_spec.
  rewrite (line_of_first [] rest f eq_refl : line_of (CRLF ++ rest) f = _).
  reflexivity.
Qed.

Lemma ReadRequest_headers_cut (n : nat) (tail : list ascii) (f : error) :
  strings.Index tail CRLF = None →
  ReadRequest_headers (S n) (mkReader tail f) = Some (Some f, mkReader [] f, []).
Proof.
  intros Htail. cbn [ReadRequest_headers]. unfold bind.
  rewrite ReadLine_spec. unfold line_of. rewrite Htail. reflexivity.
Qed.

Lemma fuel_for_block (hs : list (list ascii)) (k : list ascii) :
  ∃ n, S (length (header_block hs ++ k)) = length hs + S n.
Proof.
  pose proof (length_header_block_app hs k).
  exists (length (header_block hs ++ k) - length hs). lia.
Qed.

Lemma ReadRequest_unfold (data : list ascii) (f : error) :
  ReadRequest (mkReader data f)
  = match (line_of data f).1.2 with
    | Some e => Some ((None, Some e), (line_of data f).2, [])
    | None => after_start_line (line_of data f).1.1 (line_of data f).2
    end.
Proof.
  unfold ReadRequest, bind at 1. rewrite ReadLine_spec.
  destruct (line_of data f) as [[line [e|]] br]; cbn [fst snd]; [reflexivity|].
  unfold after_start_line.
  match goal with
  | |- match ?m br with _ => _ end = _ => destruct (m br) as [[[r br'] out]|]
  end; reflexivity.
Qed.

Lemma ReadRequest_start_line (line rest : list ascii) (f : error) :
  strings.Index line CRLF = None →
  ReadRequest (mkReader (line ++ CRLF ++ rest) f)
  = after_start_line line (mkReader rest f).
Proof.
  intros Hline. rewrite ReadRequest_unfold, (line_of_first line rest f Hline).
  reflexivity.
Qed.

(** C1: [ReadRequest] always returns; when it returns no error, the request
    it returns has the method "GET" exactly; and when it returns an error,
    it returns no request (nil). *)
Theorem ReadRequest_GET_or_nil (br : Reader) :
  ∃ req err br' out,
    ReadRequest br = Some ((req, err), br', out)
    ∧ match err with
      | None => ∃ r, req = Some r ∧ Method r = "GET"
      | Some _ => req = None
      end.
Proof.
  destruct br as [data f]. rewrite ReadRequest_unfold.
  destruct (line_of data f) as [[line [e|]] [data1 f1]]; cbn [fst snd].
  { do 4 eexists. split; reflexivity. }
  unfold after_start_line.
  destruct (parseRequestLine line) as [method [e|]].
  { do 4 eexists. split; reflexivity. }
  destruct (validMethod method) eqn:Hvalid; cbn [negb].
  2:{ do 4 eexists. split; reflexivity. }
  apply validMethod_GET in Hvalid as ->.
  unfold bind. cbn [pending].
  destruct (ReadRequest_headers_returns (S (length data1)) data1 f1)
    as (herr & rest & out & ->); [lia|].
  destruct herr as [e|]; do 4 eexists; (split; [reflexivity|]); cbn; eauto.
Qed.

(** C3 (as amended): when splitting the start line on its first space does
    not yield exactly two parts, which is when the line has no space,
    [ReadRequest] fails with the malformed-start-line error carrying the raw
    line, nothing but the start line being consumed.  In particular the
    input CR LF, whose first line is empty, is split into one field and
    gives this error.  The two parts are not required to be non-empty. *)
Theorem ReadRequest_malformed_start_line (line rest : list ascii) (f : error) :
  strings.Index line CRLF = None →
  length (strings.SplitN line " " 2) ≠ 2 →
  ReadRequest (mkReader (line ++ CRLF ++ rest) f)
  = Some ((None, Some (bad_string "malformed start line" line)),
          mkReader rest f, [])
  ∧ (SP ∉ line)
  ∧ strings.SplitN [] " " 2 = [[]]
  ∧ ReadRequest (mkReader CRLF io_EOF)
    = Some ((None, Some (bad_string "malformed start line" [])),
            mkReader [] io_EOF, []).
Proof.
  intros Hline Hfields. split_and!; [| |reflexivity..].
  - rewrite (ReadRequest_start_line line rest f Hline).
    unfold after_start_line, parseRequestLine.
    destruct (Nat.eqb_spec (length (strings.SplitN line " " 2)) 2) as [Heq|_];
      [contradiction|reflexivity].
  - rewrite SplitN_space_2 in Hfields. apply Index_byte_None.
    destruct (strings.Index line " ") eqn:E; [contradiction Hfields; reflexivity|].
    exact E.
Qed.

Lemma ReadRequest_malformed_start_line_witness :
  ReadRequest (mkReader ("GET/index.html" ++ CRLF ++ "Host: test" ++ CRLF ++ CRLF) io_EOF)
  = Some ((None, Some (bad_string "malformed start line" "GET/index.html")),
          mkReader ("Host: test" ++ CRLF ++ CRLF) io_EOF, [])
  ∧ (SP ∉ ("GET/index.html" : list ascii))
  ∧ strings.SplitN [] " " 2 = [[]]
  ∧ ReadRequest (mkReader CRLF io_EOF)
    = Some ((None, Some (bad_string "malformed start line" [])),
            mkReader [] io_EOF, []).
Proof.
  apply (ReadRequest_malformed_start_line
           "GET/index.html" ("Host: test" ++ CRLF ++ CRLF) io_EOF).
  - vm_compute. reflexivity.
  - vm_compute. lia.
Defined.

(** C3 as the specification words it fails: the start line "GET " splits
    into the two parts "GET" and the empty text, so not into two non-empty
    parts, yet the request is accepted. *)
Lemma ReadRequest_empty_part_not_malformed :
  strings.SplitN "GET " " " 2 = ["GET" : list ascii; []]
  ∧ ReadRequest (mkReader ("GET " ++ CRLF ++ CRLF) io_EOF)
    = Some ((Some (mkRequest "GET"), None), mkReader [] io_EOF, []).
Proof. vm_compute. split; reflexivity. Qed.

(** C4: when the start line splits on its first space into two parts and
    the first one is anything but "GET", [ReadRequest] fails with the
    invalid-method error carrying that first part. *)
Theorem ReadRequest_invalid_method
    (line method target rest : list ascii) (f : error) :
  strings.Index line CRLF = None →
  strings.SplitN line " " 2 = [method; target] →
  method ≠ "GET" →
  ReadRequest (mkReader (line ++ CRLF ++ rest) f)
  = Some ((None, Some (bad_string "invalid method" method)),
          mkReader rest f, []).
Proof.
  intros Hline Hfields Hmethod.
  rewrite (ReadRequest_start_line line rest f Hline).
  unfold after_start_line, parseRequestLine. rewrite Hfields. cbn [length Nat.eqb negb nth].
  unfold validMethod. rewrite bool_decide_eq_false_2 by exact Hmethod. reflexivity.
Qed.

Lemma ReadRequest_invalid_method_witness :
  ReadRequest (mkReader ("GETT /index.html HTTP/1.1" ++ CRLF ++ "Host: test" ++ CRLF ++ CRLF) io_EOF)
  = Some ((None, Some (bad_string "invalid method" "GETT")),
          mkReader ("Host: test" ++ CRLF ++ CRLF) io_EOF, []).
Proof.
  apply (ReadRequest_invalid_method
           "GETT /index.html HTTP/1.1" "GETT" "/index.html HTTP/1.1").
  - vm_compute. reflexivity.
  - vm_compute. reflexivity.
  - vm_compute. discriminate.
Defined.

Example ReadRequest_invalid_method_cases :
  ReadRequest (mkReader ("get / HTTP/1.1" ++ CRLF ++ CRLF) io_EOF)
  = Some ((None, Some (bad_string "invalid method" "get")), mkReader CRLF io_EOF, [])
  ∧ ReadRequest (mkReader ("POST / HTTP/1.1" ++ CRLF ++ CRLF) io_EOF)
    = Some ((None, Some (bad_string "invalid method" "POST")), mkReader CRLF io_EOF, [])
  ∧ ReadRequest (mkReader ("This is a bad request" ++ CRLF) io_EOF)
    = Some ((None, Some (bad_string "invalid method" "This")), mkReader [] io_EOF, []).
Proof. vm_compute. repeat split. Qed.

Lemma after_start_line_GET (line : list ascii) (br : Reader) :
  parseRequestLine line = ("GET" : list ascii, None) →
  after_start_line line br
  = match ReadRequest_headers (S (length (pending br))) br with
    | Some (Some e, br', out) => Some ((None, Some e), br', out)
    | Some (None, br', out) => Some ((Some (mkRequest "GET"), None), br', out)
    | None => None
    end.
Proof.
  intros Hparse. unfold after_start_line. rewrite Hparse.
  change (validMethod "GET") with true. cbn [negb]. unfold bind.
  destruct (ReadRequest_headers _ br) as [[[[e|] br'] out]|]; cbn [ret];
    rewrite ?app_nil_r; reflexivity.
Qed.

Lemma ReadRequest_whole (line : list ascii) (hs : list (list ascii))
    (rest : list ascii) (f : error) :
  start_line line → Forall header_line hs →
  ReadRequest (mkReader (request_bytes line hs ++ rest) f)
  = Some ((Some (mkRequest "GET"), None), mkReader rest f, printed hs).
Proof.
  intros [Hline Hparse] Hhs. unfold request_bytes. rewrite <- !app_assoc.
  rewrite (ReadRequest_start_line line _ f Hline), (after_start_line_GET _ _ Hparse).
  cbn [pending].
  destruct (fuel_for_block hs (CRLF ++ rest)) as [n ->].
  rewrite (ReadRequest_headers_block hs Hhs), ReadRequest_headers_end, app_nil_r.
  reflexivity.
Qed.

Lemma ReadRequest_cut_in_headers (line : list ascii) (hs : list (list ascii))
    (tail : list ascii) (f : error) :
  start_line line → Forall header_line hs → strings.Index tail CRLF = None →
  ReadRequest (mkReader (line ++ CRLF ++ header_block hs ++ tail) f)
  = Some ((None, Some f), mkReader [] f, printed hs).
Proof.
  intros [Hline Hparse] Hhs Htail.
  rewrite (ReadRequest_start_line line _ f Hline), (after_start_line_GET _ _ Hparse).
  cbn [pending].
  destruct (fuel_for_block hs tail) as [n ->].
  rewrite (ReadRequest_headers_block hs Hhs), (ReadRequest_headers_cut n tail f Htail).
  rewrite app_nil_r. reflexivity.
Qed.

(** C7: after a valid start line the header lines are read and thrown away
    up to the first empty line, and what they hold cannot make the parse
    fail: for any header lines (not empty, CRLF-terminated) followed by the
    blank line, [ReadRequest] returns the request, having consumed the
    request and nothing after it.  When instead the source ends or fails
    among the headers, before a blank line, its error is returned as it is,
    and no request. *)
Theorem ReadRequest_headers_discarded (line : list ascii) (hs : list (list ascii))
    (rest tail : list ascii) (f : error) :
  start_line line → Forall header_line hs →
  ReadRequest (mkReader (line ++ CRLF ++ header_block hs ++ CRLF ++ rest) f)
  = Some ((Some (mkRequest "GET"), None), mkReader rest f, printed hs)
  ∧ (strings.Index tail CRLF = None →
     ReadRequest (mkReader (line ++ CRLF ++ header_block hs ++ tail) f)
     = Some ((None, Some f), mkReader [] f, printed hs)).
Proof.
  intros Hstart Hhs. split.
  - pose proof (ReadRequest_whole line hs rest f Hstart Hhs) as H.
    unfold request_bytes in H. rewrite <- !app_assoc in H. exact H.
  - intros Htail. apply ReadRequest_cut_in_headers; assumption.
Qed.

Lemma ReadRequest_headers_discarded_witness :
  ReadRequest
    (mkReader ("GET /index.html HTTP/1.1" ++ CRLF
               ++ header_block ["Host: test" : list ascii; ": no name, no value;;" : list ascii]
               ++ CRLF ++ "next") io_EOF)
  = Some ((Some (mkRequest "GET"), None), mkReader "next" io_EOF,
          printed ["Host: test" : list ascii; ": no name, no value;;" : list ascii])
  ∧ ReadRequest
      (mkReader ("GET /index.html HTTP/1.1" ++ CRLF
                 ++ header_block ["Host: test" : list ascii; ": no name, no value;;" : list ascii]
                 ++ "Accept: te") io_EOF)
    = Some ((None, Some io_EOF), mkReader [] io_EOF,
            printed ["Host: test" : list ascii; ": no name, no value;;" : list ascii]).
Proof.
  destruct (ReadRequest_headers_discarded
              "GET /index.html HTTP/1.1"
              ["Host: test" : list ascii; ": no name, no value;;" : list ascii]
              "next" "Accept: te" io_EOF) as [Hok Hcut].
  - split; vm_compute; reflexivity.
  - repeat constructor; try discriminate; vm_compute; reflexivity.
  - split; [exact Hok|]. apply Hcut. vm_compute. reflexivity.
Defined.

(** C8: a call to [ReadRequest] consumes the bytes of one whole request and
    no more.  On two valid requests one after the other, two calls in a row
    on the same reader each return the request with method "GET" and no
    error; on one valid request and then a clean end of stream, the first
    call returns the request and the second the end-of-stream error with
    nothing read, not a malformed-input error. *)
Theorem ReadRequest_one_request_per_call
    (line1 line2 : list ascii) (hs1 hs2 : list (list ascii))
    (rest : list ascii) (f : error) :
  start_line line1 → Forall header_line hs1 →
  start_line line2 → Forall header_line hs2 →
  ReadRequest (mkReader (request_bytes line1 hs1 ++ rest) f)
  = Some ((Some (mkRequest "GET"), None), mkReader rest f, printed hs1)
  ∧ ReadRequest_twice
      (mkReader (request_bytes line1 hs1 ++ request_bytes line2 hs2 ++ rest) f)
    = Some (((Some (mkRequest "GET"), None), (Some (mkRequest "GET"), None)),
            mkReader rest f, printed hs1 ++ printed hs2)
  ∧ ReadRequest_twice (mkReader (request_bytes line1 hs1) io_EOF)
    = Some (((Some (mkRequest "GET"), None), (None, Some io_EOF)),
            mkReader [] io_EOF, printed hs1).
Proof.
  intros Hl1 Hhs1 Hl2 Hhs2. split_and!.
  - apply ReadRequest_whole; assumption.
  - unfold ReadRequest_twice, bind.
    rewrite (ReadRequest_whole line1 hs1 _ f Hl1 Hhs1).
    rewrite (ReadRequest_whole line2 hs2 rest f Hl2 Hhs2).
    cbn [ret]. rewrite app_nil_r. reflexivity.
  - unfold ReadRequest_twice, bind.
    rewrite <- (app_nil_r (request_bytes line1 hs1)).
    rewrite (ReadRequest_whole line1 hs1 [] io_EOF Hl1 Hhs1).
    rewrite ReadRequest_unfold. cbn. rewrite app_nil_r. reflexivity.
Qed.

Lemma ReadRequest_one_request_per_call_witness :
  let line := "GET /index.html HTTP/1.1" : list ascii in
  let hs := ["Host: test" : list ascii] in
  ReadRequest (mkReader (request_bytes line hs ++ "tail") io_EOF)
  = Some ((Some (mkRequest "GET"), None), mkReader "tail" io_EOF, printed hs)
  ∧ ReadRequest_twice
      (mkReader (request_bytes line hs ++ request_bytes line hs ++ "tail") io_EOF)
    = Some (((Some (mkRequest "GET"), None), (Some (mkRequest "GET"), None)),
            mkReader "tail" io_EOF, printed hs ++ printed hs)
  ∧ ReadRequest_twice (mkReader (request_bytes line hs) io_EOF)
    = Some (((Some (mkRequest "GET"), None), (None, Some io_EOF)),
            mkReader [] io_EOF, printed hs).
Proof.
  intros line hs.
  apply (ReadRequest_one_request_per_call line line hs hs "tail" io_EOF).
  - split; vm_compute; reflexivity.
  - repeat constructor; try discriminate; vm_compute; reflexivity.
  - split; vm_compute; reflexivity.
  - repeat constructor; try discriminate; vm_compute; reflexivity.
Defined.

(** ** The status line *)

Lemma statusText_OK : statusText !! statusOK = Some ("OK" : list ascii).
Proof. unfold statusText. apply lookup_insert_eq. Qed.

Lemma statusText_MethodNotAllowed :
  statusText !! statusMethodNotAllowed = Some ("Method Not Allowed" : list ascii).
Proof.
  unfold statusText. rewrite lookup_insert_ne by discriminate.
  apply lookup_insert_eq.
Qed.

Lemma statusText_unmapped (code : Z) :
  code ≠ statusOK → code ≠ statusMethodNotAllowed → statusText !! code = None.
Proof.
  intros Hok Hna. unfold statusText.
  rewrite !lookup_insert_ne by congruence. apply lookup_empty.
Qed.

(** [Write] does not look at the file path, and a writer that takes the
    bytes gets the status line and nothing else. *)
Lemma Write_status_line (res : Response) (w0 : list ascii) :
  Write res (mkWriter w0 None)
  = (None, mkWriter (w0 ++ Proto res ++ " " ++ itoa (StatusCode res) ++ " "
                        ++ default [] (statusText !! StatusCode res) ++ CRLF) None).
Proof.
  unfold Write, WriteString, NewWriter. cbn [buf wr app].
  destruct (_ <=? _)%nat; unfold Flush; cbn [wr buf broken sent];
    rewrite ?app_nil_r; reflexivity.
Qed.

(** A writer that is broken gives its error back and takes no byte. *)
Lemma Write_broken (res : Response) (w0 : list ascii) (e : error) :
  Write res (mkWriter w0 (Some e)) = (Some e, mkWriter w0 (Some e)).
Proof.
  unfold Write, WriteString, NewWriter. cbn [buf wr app].
  destruct (_ <=? _)%nat; reflexivity.
Qed.

(** C9: on a response prepared by [HandleOK], [Write] emits exactly the
    bytes of "HTTP/1.1 200 OK" and CR LF; on one prepared by
    [HandleBadRequest], exactly those of "HTTP/1.1 405 Method Not Allowed"
    and CR LF; no header line and no body follow, and no error is
    returned. *)
Theorem Write_status_lines (res : Response) (w0 : list ascii) :
  Write (HandleOK res) (mkWriter w0 None)
  = (None, mkWriter (w0 ++ "HTTP/1.1 200 OK" ++ CRLF) None)
  ∧ Write (HandleBadRequest res) (mkWriter w0 None)
    = (None, mkWriter (w0 ++ "HTTP/1.1 405 Method Not Allowed" ++ CRLF) None).
Proof.
  rewrite !Write_status_line. cbn [HandleOK HandleBadRequest init StatusCode Proto].
  rewrite statusText_OK, statusText_MethodNotAllowed. split; reflexivity.
Qed.

(** C10: for a status code that is neither 200 nor 405 the table has no
    entry, and [Write] neither fails nor leaves the line out: it emits the
    protocol, the code in decimal and an empty reason phrase, so a space
    comes right before CR LF; with the protocol that [init] sets, the line
    is "HTTP/1.1 ", the code, a space, CR LF. *)
Theorem Write_unmapped_status (res : Response) (w0 : list ascii) :
  StatusCode res ≠ statusOK →
  StatusCode res ≠ statusMethodNotAllowed →
  default [] (statusText !! StatusCode res) = []
  ∧ Write res (mkWriter w0 None)
    = (None, mkWriter (w0 ++ Proto res ++ " " ++ itoa (StatusCode res) ++ " " ++ CRLF) None)
  ∧ Write (init res) (mkWriter w0 None)
    = (None, mkWriter (w0 ++ "HTTP/1.1 " ++ itoa (StatusCode res) ++ " " ++ CRLF) None).
Proof.
  intros Hok Hna. rewrite !Write_status_line. cbn [init StatusCode Proto].
  rewrite (statusText_unmapped _ Hok Hna). split_and!; reflexivity.
Qed.

Lemma Write_unmapped_status_witness :
  Write (mkResponse 500 responseProto []) (mkWriter [] None)
  = (None, mkWriter ("HTTP/1.1 500 " ++ CRLF) None).
Proof.
  destruct (Write_unmapped_status (mkResponse 500 responseProto []) [])
    as (_ & Hline & _).
  - cbn. discriminate.
  - cbn. discriminate.
  - exact Hline.
Defined.

(** C10 as it is worded fails: a response whose protocol was not set by
    [init], here "X" with the code 500, gets the line "X 500 " CR LF, which
    is not "HTTP/1.1 500 " CR LF. *)
Lemma Write_unmapped_status_other_proto :
  StatusCode (mkResponse 500 "X" []) ≠ statusOK
  ∧ StatusCode (mkResponse 500 "X" []) ≠ statusMethodNotAllowed
  ∧ Write (mkResponse 500 "X" []) (mkWriter [] None)
    = (None, mkWriter ("X 500 " ++ CRLF) None)
  ∧ Write (mkResponse 500 "X" []) (mkWriter [] None)
    ≠ (None, mkWriter ("HTTP/1.1 500 " ++ CRLF) None).
Proof.
  split_and!; [discriminate|discriminate|vm_compute; reflexivity|].
  vm_compute. discriminate.
Qed.


(** ** More on the line reader and the start line *)

Lemma Index_CRLF_take (data : list ascii) :
  ∀ k, strings.Index data CRLF = Some k → strings.Index (take k data) CRLF = None.
Proof.
  induction data as [|c data IH]; intros k.
  - cbn. discriminate.
  - cbn [strings.Index]. rewrite HasPrefix_CRLF_cons.
    destruct (bool_decide (c = CR) && bool_decide (head data = Some LF)) eqn:E.
    + intros [= <-]. reflexivity.
    + destruct (strings.Index data CRLF) as [k'|] eqn:Ek; [|discriminate].
      intros [= <-]. cbn [take strings.Index]. rewrite HasPrefix_CRLF_cons.
      rewrite (IH k' eq_refl).
      assert (bool_decide (c = CR) && bool_decide (head (take k' data) = Some LF) = false)
        as ->; [|reflexivity].
      destruct k' as [|k']; [cbn; apply andb_false_r|].
      destruct data as [|y data]; [cbn; apply andb_false_r|exact E].
Qed.

(** X1: a line that holds no CRLF, written with its CRLF in front of any
    bytes, is read back as it is, and the reader is left on those bytes. *)
Theorem ReadLine_round_trip (line rest : list ascii) (f : error) :
  strings.Index line CRLF = None →
  ReadLine (mkReader (line ++ CRLF ++ rest) f)
  = Some ((line, None), mkReader rest f, []).
Proof.
  intros Hline. rewrite ReadLine_spec, (line_of_first line rest f Hline). reflexivity.
Qed.

Lemma ReadLine_round_trip_witness :
  strings.Index "GET / HTTP/1.1" CRLF = None
  ∧ ReadLine (mkReader ("GET / HTTP/1.1" ++ CRLF ++ "Host: a") net_Timeout)
    = Some (("GET / HTTP/1.1" : list ascii, None), mkReader "Host: a" net_Timeout, []).
Proof.
  split; [vm_compute; reflexivity|].
  apply (ReadLine_round_trip "GET / HTTP/1.1" "Host: a" net_Timeout).
  vm_compute. reflexivity.
Defined.

(** X2: a line that [ReadLine] returns without error never holds a CRLF,
    and the reader keeps the error of its source. *)
Theorem ReadLine_line_has_no_CRLF (br br' : Reader) (line : list ascii)
    (out : list (list ascii)) :
  ReadLine br = Some ((line, None), br', out) →
  strings.Index line CRLF = None ∧ fault br' = fault br ∧ out = [].
Proof.
  destruct br as [data f]. rewrite ReadLine_spec. unfold line_of.
  destruct (strings.Index data CRLF) as [k|] eqn:Hk; [|discriminate].
  intros [= <- <- <-]. split_and!; [|reflexivity..].
  apply Index_CRLF_take, Hk.
Qed.

Lemma ReadLine_line_has_no_CRLF_witness :
  strings.Index ("a" ++ [LF] ++ "b" ++ [CR]) CRLF = None
  ∧ fault (mkReader "c" io_EOF)
    = fault (mkReader ("a" ++ [LF] ++ "b" ++ [CR] ++ CRLF ++ "c") io_EOF)
  ∧ ([] : list (list ascii)) = [].
Proof.
  apply (ReadLine_line_has_no_CRLF
           (mkReader ("a" ++ [LF] ++ "b" ++ [CR] ++ CRLF ++ "c") io_EOF)
           (mkReader "c" io_EOF) ("a" ++ [LF] ++ "b" ++ [CR]) []).
  vm_compute. reflexivity.
Defined.

Lemma Index_byte_at (p rest : list ascii) (c : ascii) :
  c ∉ p → strings.Index (p ++ c :: rest) [c] = Some (length p).
Proof.
  induction p as [|x p IH]; intros Hp.
  - cbn [app strings.Index]. rewrite HasPrefix_byte, bool_decide_eq_true_2; reflexivity.
  - rewrite not_elem_of_cons in Hp. destruct Hp as [Hx Hp].
    change ((x :: p) ++ c :: rest) with (x :: (p ++ c :: rest)).
    cbn [strings.Index]. rewrite HasPrefix_byte, bool_decide_eq_false_2 by congruence.
    rewrite (IH Hp). reflexivity.
Qed.

Lemma Index_byte_absent (s : list ascii) (c : ascii) :
  c ∉ s → strings.Index s [c] = None.
Proof.
  induction s as [|x s IH]; intros Hs; [reflexivity|].
  rewrite not_elem_of_cons in Hs. destruct Hs as [Hx Hs].
  cbn [strings.Index]. rewrite HasPrefix_byte, bool_decide_eq_false_2 by congruence.
  rewrite (IH Hs). reflexivity.
Qed.

(** X3: [parseRequestLine] cuts the start line at its first space only: for
    a method without space and any remainder, spaces included, it returns
    the method and no error. *)
Theorem parseRequestLine_method (method target : list ascii) :
  SP ∉ method →
  parseRequestLine (method ++ " " ++ target) = (method, None)
  ∧ strings.SplitN (method ++ " " ++ target) " " 2 = [method; target].
Proof.
  intros Hm.
  assert (strings.SplitN (method ++ " " ++ target) " " 2 = [method; target]) as Hsplit.
  { rewrite SplitN_space_2.
    change (method ++ " " ++ target) with (method ++ SP :: target).
    rewrite (Index_byte_at method target SP Hm : strings.Index _ " " = _).
    rewrite take_app_length, drop_app_add. reflexivity. }
  split; [|exact Hsplit].
  unfold parseRequestLine. rewrite Hsplit. reflexivity.
Qed.

Lemma parseRequestLine_method_witness :
  parseRequestLine ("GET" ++ " " ++ "/a b  c HTTP/1.1") = ("GET" : list ascii, None)
  ∧ strings.SplitN ("GET" ++ " " ++ "/a b  c HTTP/1.1") " " 2
    = ["GET" : list ascii; "/a b  c HTTP/1.1" : list ascii].
Proof.
  apply (parseRequestLine_method "GET" "/a b  c HTTP/1.1").
  vm_compute. intros H. repeat (apply elem_of_cons in H as [H|H]; [discriminate|]).
  apply elem_of_nil in H. exact H.
Defined.

(** X4: a start line without any space is not parsed: [parseRequestLine]
    returns the empty method and the error that carries the one field found,
    which is the whole line. *)
Theorem parseRequestLine_no_space (line : list ascii) :
  SP ∉ line →
  parseRequestLine line = ([], Some (could_not_parse [line])).
Proof.
  intros Hline. rewrite parseRequestLine_spec.
  rewrite (Index_byte_absent line SP Hline : strings.Index _ " " = _). reflexivity.
Qed.

Lemma parseRequestLine_no_space_witness :
  parseRequestLine "GET/index.html"
  = ([], Some (could_not_parse ["GET/index.html" : list ascii])).
Proof.
  apply (parseRequestLine_no_space "GET/index.html").
  vm_compute. intros H. repeat (apply elem_of_cons in H as [H|H]; [discriminate|]).
  apply elem_of_nil in H. exact H.
Defined.

(** ** More on the request parser *)

Lemma line_of_progress (data : list ascii) (f : error) :
  ∃ line err rest,
    line_of data f = ((line, err), mkReader rest f)
    ∧ rest `suffix_of` data
    ∧ (err = None → length rest + 2 ≤ length data).
Proof.
  unfold line_of. destruct (strings.Index data CRLF) as [k|] eqn:Hk.
  - do 3 eexists. split_and!; [reflexivity|apply suffix_drop|].
    intros _. apply Index_CRLF_length in Hk. rewrite length_drop. lia.
  - do 3 eexists. split_and!; [reflexivity|apply suffix_nil|discriminate].
Qed.

Lemma ReadRequest_headers_progress (fuel : nat) :
  ∀ (data : list ascii) (f : error),
    length data < fuel →
    ∃ r rest out,
      ReadRequest_headers fuel (mkReader data f) = Some (r, mkReader rest f, out)
      ∧ rest `suffix_of` data.
Proof.
  induction fuel as [|fuel IH]; intros data f Hlen; [lia|].
  cbn [ReadRequest_headers]. unfold bind at 1. rewrite ReadLine_spec.
  destruct (line_of_progress data f) as (line & err & rest & -> & Hsuf & Hlt).
  destruct err as [e|].
  { do 3 eexists. split; [reflexivity|exact Hsuf]. }
  case_bool_decide as Hempty.
  { do 3 eexists. split; [reflexivity|exact Hsuf]. }
  unfold bind, Println. specialize (Hlt eq_refl).
  destruct (IH rest f) as (r & rest' & out & -> & Hsuf'); [lia|].
  do 3 eexists. split; [reflexivity|]. etrans; eassumption.
Qed.

Lemma ReadRequest_progress (data : list ascii) (f : error) :
  ∃ req err rest out,
    ReadRequest (mkReader data f) = Some ((req, err), mkReader rest f, out)
    ∧ rest `suffix_of` data
    ∧ (err = None → length rest + 2 ≤ length data).
Proof.
  rewrite ReadRequest_unfold.
  destruct (line_of_progress data f) as (line & err & rest & -> & Hsuf & Hlt).
  cbn [fst snd]. destruct err as [e|].
  { do 4 eexists. split_and!; [reflexivity|exact Hsuf|discriminate]. }
  specialize (Hlt eq_refl). unfold after_start_line.
  destruct (parseRequestLine line) as [method [e|]].
  { do 4 eexists. split_and!; [reflexivity|exact Hsuf|discriminate]. }
  destruct (negb (validMethod method)).
  { do 4 eexists. split_and!; [reflexivity|exact Hsuf|discriminate]. }
  unfold bind. cbn [pending].
  destruct (ReadRequest_headers_progress (S (length rest)) rest f)
    as (herr & rest' & out & -> & Hsuf'); [lia|].
  assert (rest' `suffix_of` data) as Hsuf'' by (etrans; eassumption).
  apply suffix_length in Hsuf'.
  destruct herr as [e|]; do 4 eexists;
    (split_and!; [reflexivity|exact Hsuf''|]); [discriminate|intros _; lia].
Qed.

(** X5: [ReadRequest] returns on every reader; it only moves the reader
    forward, leaving a suffix of the bytes it found and the same source
    error, and it has read something whenever it returns no error. *)
Theorem ReadRequest_moves_forward (br : Reader) :
  ∃ req err br' out,
    ReadRequest br = Some ((req, err), br', out)
    ∧ fault br' = fault br
    ∧ pending br' `suffix_of` pending br
    ∧ (err = None → length (pending br') < length (pending br)).
Proof.
  destruct br as [data f].
  destruct (ReadRequest_progress data f) as (req & err & rest & out & -> & Hsuf & Hlt).
  exists req, err, (mkReader rest f), out. cbn [pending fault].
  split_and!; [reflexivity..|exact Hsuf|]. intros Herr. specialize (Hlt Herr). lia.
Qed.

(** X6: when the source ends or fails before the first CRLF, [ReadRequest]
    returns the error of the source and no request, whatever bytes came:
    a start line that is cut short is never reported as malformed or as an
    invalid method. *)
Theorem ReadRequest_cut_start_line (data : list ascii) (f : error) :
  strings.Index data CRLF = None →
  ReadRequest (mkReader data f) = Some ((None, Some f), mkReader [] f, []).
Proof.
  intros Hdata. rewrite ReadRequest_unfold. unfold line_of. rewrite Hdata.
  reflexivity.
Qed.

Lemma ReadRequest_cut_start_line_witness :
  ReadRequest (mkReader "POST /index.html HTT" io_EOF)
  = Some ((None, Some io_EOF), mkReader [] io_EOF, []).
Proof.
  apply (ReadRequest_cut_start_line "POST /index.html HTT" io_EOF).
  vm_compute. reflexivity.
Defined.

Lemma HasPrefix_app (pre s : list ascii) : strings.HasPrefix (pre ++ s) pre = true.
Proof.
  induction pre as [|p pre IH]; [reflexivity|].
  cbn [app strings.HasPrefix]. rewrite bool_decide_eq_true_2 by reflexivity. exact IH.
Qed.

Lemma Index_le (sep s : list ascii) :
  ∀ n, strings.HasPrefix (drop n s) sep = true →
       ∃ k, strings.Index s sep = Some k ∧ k ≤ n.
Proof.
  induction s as [|c s IH]; intros n Hn.
  - rewrite drop_nil in Hn. exists 0. cbn [strings.Index]. rewrite Hn. split; [reflexivity|lia].
  - cbn [strings.Index]. destruct (strings.HasPrefix (c :: s) sep) eqn:E.
    + exists 0. split; [reflexivity|lia].
    + destruct n as [|n]; [rewrite drop_0 in Hn; congruence|].
      cbn [drop] in Hn. destruct (IH n Hn) as (k & -> & Hk).
      exists (S k). split; [reflexivity|lia].
Qed.

Lemma Index_CRLF_lookup (s : list ascii) (k : nat) :
  strings.Index s CRLF = Some k → s !! k = Some CR ∧ s !! (k + 1) = Some LF.
Proof.
  intros Hk. apply Index_Some_first in Hk as [Hk _].
  apply HasPrefix_split in Hk.
  pose proof (lookup_drop s k 0) as H0. pose proof (lookup_drop s k 1) as H1.
  rewrite Hk, Nat.add_0_r in H0. rewrite Hk in H1.
  split; [symmetry; exact H0|symmetry; exact H1].
Qed.

(** The first line of bytes that go on to a blank line: it ends within
    them, and what follows is the blank line or goes on to it as well. *)
Lemma first_line_before_blank (Y tl : list ascii) :
  ∃ k, strings.Index (Y ++ CRLF ++ CRLF ++ tl) CRLF = Some k
       ∧ take k (Y ++ CRLF ++ CRLF ++ tl) = take k Y
       ∧ ((k = length Y ∧ drop (k + 2) (Y ++ CRLF ++ CRLF ++ tl) = CRLF ++ tl)
          ∨ (k + 2 ≤ length Y
             ∧ drop (k + 2) (Y ++ CRLF ++ CRLF ++ tl)
               = drop (k + 2) Y ++ CRLF ++ CRLF ++ tl)).
Proof.
  destruct (Index_le CRLF (Y ++ CRLF ++ CRLF ++ tl) (length Y)) as (k & Hk & Hle).
  { rewrite drop_app_length. reflexivity. }
  exists k. split; [exact Hk|]. split; [apply take_app_le, Hle|].
  destruct (decide (k = length Y)) as [->|Hne].
  - left. split; [reflexivity|]. rewrite drop_app_add. reflexivity.
  - right. apply Index_CRLF_lookup in Hk as [_ HLF].
    assert (k + 1 ≠ length Y) as Hne'.
    { intros Heq. rewrite Heq, lookup_app_r, Nat.sub_diag in HLF by lia.
      discriminate. }
    split; [lia|]. apply drop_app_le. lia.
Qed.

Lemma ReadRequest_headers_to_blank (tl : list ascii) (f : error) (fuel : nat) :
  ∀ Y, length (Y ++ CRLF ++ CRLF ++ tl) < fuel →
       ∃ rest out,
         ReadRequest_headers fuel (mkReader (Y ++ CRLF ++ CRLF ++ tl) f)
         = Some (None, mkReader rest f, out)
         ∧ tl `suffix_of` rest.
Proof.
  induction fuel as [|fuel IH]; intros Y Hlen; [lia|].
  cbn [ReadRequest_headers]. unfold bind at 1. rewrite ReadLine_spec.
  destruct (first_line_before_blank Y tl) as (k & Hk & Htake & Hrest).
  unfold line_of. rewrite Hk.
  assert (tl `suffix_of` drop (k + 2) (Y ++ CRLF ++ CRLF ++ tl)) as Htl.
  { destruct Hrest as [[_ ->]|[_ ->]]; rewrite ?app_assoc; apply suffix_app_r; reflexivity. }
  case_bool_decide as Hempty.
  { do 2 eexists. split; [reflexivity|exact Htl]. }
  unfold bind, Println.
  rewrite !length_app in Hlen. cbn [length CRLF] in Hlen.
  destruct Hrest as [[-> ->]|[Hle ->]].
  - destruct fuel as [|fuel]; [lia|].
    rewrite ReadRequest_headers_end. do 2 eexists. split; reflexivity.
  - destruct (IH (drop (k + 2) Y)) as (rest & out & -> & Hsuf).
    { rewrite !length_app, length_drop. cbn [length CRLF]. lia. }
    do 2 eexists. split; [reflexivity|exact Hsuf].
Qed.

(** X7: every stream that starts with "GET ", and later holds an empty
    line, is accepted: [ReadRequest] returns the request with method "GET",
    whatever bytes stand between the method and the blank line, and reads
    no further than that blank line. *)
Theorem ReadRequest_accepts (mid tl : list ascii) (f : error) :
  ∃ rest out,
    ReadRequest (mkReader ("GET " ++ mid ++ CRLF ++ CRLF ++ tl) f)
    = Some ((Some (mkRequest "GET"), None), mkReader rest f, out)
    ∧ tl `suffix_of` rest.
Proof.
  rewrite ReadRequest_unfold. rewrite (app_assoc "GET " mid).
  destruct (first_line_before_blank ("GET " ++ mid) tl) as (k & Hk & Htake & Hrest).
  unfold line_of. rewrite Hk, Htake. cbn [fst snd].
  destruct (Index_CRLF_lookup _ _ Hk) as [HCR _].
  destruct k as [|[|[|[|k]]]]; try discriminate HCR.
  change (take (S (S (S (S k)))) ("GET " ++ mid)) with ("GET" ++ " " ++ take k mid).
  rewrite after_start_line_GET by (rewrite parseRequestLine_spec; reflexivity).
  cbn [pending].
  destruct Hrest as [[_ ->]|[Hle ->]].
  - rewrite ReadRequest_headers_end. do 2 eexists. split; reflexivity.
  - destruct (ReadRequest_headers_to_blank tl f
                (S (length (drop (S (S (S (S k))) + 2) ("GET " ++ mid) ++ CRLF ++ CRLF ++ tl)))
                (drop (S (S (S (S k))) + 2) ("GET " ++ mid)))
      as (rest' & out' & -> & Hsuf); [lia|].
    do 2 eexists. split; [reflexivity|exact Hsuf].
Qed.

Lemma line_of_success (data : list ascii) (f : error) (line : list ascii) (br : Reader) :
  line_of data f = ((line, None), br) →
  ∃ rest, br = mkReader rest f ∧ data = line ++ CRLF ++ rest.
Proof.
  unfold line_of. destruct (strings.Index data CRLF) as [k|] eqn:Hk; [|discriminate].
  intros [= <- <-]. eexists. split; [reflexivity|].
  apply (Index_Some_split data CRLF k Hk).
Qed.

(** When the header loop ends on a blank line, what it has read is that
    blank line alone, or lines and then the blank line. *)
Lemma ReadRequest_headers_break (fuel : nat) :
  ∀ (data : list ascii) (f : error) (br : Reader) (out : list (list ascii)),
    ReadRequest_headers fuel (mkReader data f) = Some (None, br, out) →
    ∃ c rest, br = mkReader rest f ∧ data = c ++ CRLF ++ rest
              ∧ (c = [] ∨ ∃ c', c = c' ++ CRLF).
Proof.
  induction fuel as [|fuel IH]; intros data f br out; [discriminate|].
  cbn [ReadRequest_headers]. unfold bind at 1. rewrite ReadLine_spec.
  destruct (line_of data f) as [[line [e|]] br1] eqn:Hline; [discriminate|].
  apply line_of_success in Hline as (rest1 & -> & ->).
  case_bool_decide as Hempty.
  - intros [= <- <-]. subst line. exists [], rest1. split_and!; [reflexivity..|by left].
  - unfold bind, Println.
    destruct (ReadRequest_headers fuel (mkReader rest1 f)) as [[[r br2] out2]|] eqn:Hrec;
      [|discriminate].
    intros [= -> -> <-].
    apply IH in Hrec as (c & rest & -> & -> & Hc).
    exists (line ++ CRLF ++ c), rest. split_and!; [reflexivity| |].
    + rewrite <- !app_assoc. reflexivity.
    + right. destruct Hc as [->|[c' ->]].
      * exists line. rewrite app_nil_r. reflexivity.
      * exists (line ++ CRLF ++ c'). rewrite <- !app_assoc. reflexivity.
Qed.

(** X8: [ReadRequest] accepts nothing else: when it returns a request, the
    bytes it has read are "GET ", some bytes, and two CRLF in a row, so the
    reader is left right after an empty line. *)
Theorem ReadRequest_accepted_shape (data : list ascii) (f : error)
    (req : Request) (err : option error) (br : Reader) (out : list (list ascii)) :
  ReadRequest (mkReader data f) = Some ((Some req, err), br, out) →
  ∃ mid, data = "GET " ++ mid ++ CRLF ++ CRLF ++ pending br
         ∧ fault br = f ∧ err = None ∧ Method req = "GET".
Proof.
  rewrite ReadRequest_unfold.
  destruct (line_of data f) as [[line [e|]] br1] eqn:Hline; cbn [fst snd];
    [discriminate|].
  apply line_of_success in Hline as (rest1 & -> & ->).
  unfold after_start_line. rewrite parseRequestLine_spec.
  destruct (strings.Index line " ") as [i|] eqn:Hi; [|discriminate].
  destruct (validMethod (take i line)) eqn:Hvalid; cbn [negb]; [|discriminate].
  apply validMethod_GET in Hvalid.
  apply Index_Some_split in Hi. rewrite Hvalid in Hi.
  unfold bind. cbn [pending].
  destruct (ReadRequest_headers (S (length rest1)) (mkReader rest1 f))
    as [[[[e|] br2] out2]|] eqn:Hh; [discriminate| |discriminate].
  intros [= <- <- <- <-].
  apply ReadRequest_headers_break in Hh as (c & rest & -> & -> & Hc).
  cbn [pending fault Method]. rewrite Hvalid. clear Hvalid.
  remember (drop (i + length (" " : list ascii)) line) as target eqn:Htarget.
  clear Htarget. subst line.
  destruct Hc as [->|[c' ->]].
  - exists target.
    split_and!; [|reflexivity..]. rewrite <- !app_assoc. reflexivity.
  - exists (target ++ CRLF ++ c').
    split_and!; [|reflexivity..]. rewrite <- !app_assoc. reflexivity.
Qed.

Lemma ReadRequest_accepted_shape_witness :
  ∃ mid, "GET /index.html HTTP/1.1" ++ CRLF ++ "Host: test" ++ CRLF ++ CRLF ++ "more"
         = "GET " ++ mid ++ CRLF ++ CRLF
             ++ pending (mkReader "more" io_EOF)
         ∧ fault (mkReader "more" io_EOF) = io_EOF
         ∧ (None : option error) = None
         ∧ Method (mkRequest "GET") = "GET".
Proof.
  apply (ReadRequest_accepted_shape
           ("GET /index.html HTTP/1.1" ++ CRLF ++ "Host: test" ++ CRLF ++ CRLF ++ "more")
           io_EOF (mkRequest "GET") None (mkReader "more" io_EOF)
           ["Read line from request Host: test" ++ [LF]]).
  vm_compute. reflexivity.
Defined.

(** ** The setup check *)

(** X9: [ValidateServerSetup] returns no error exactly when [os.Stat] finds
    the doc root and it is a directory; a doc root that is there but is not
    a directory gives the error that names it. *)
Theorem ValidateServerSetup_nil_iff_directory
    (os_Stat : list ascii → FileInfo + error) (os_IsNotExist : error → bool)
    (s : Server) :
  (ValidateServerSetup os_Stat os_IsNotExist s = returns None
   ↔ os_Stat (DocRoot s) = inl (mkFileInfo true))
  ∧ (os_Stat (DocRoot s) = inl (mkFileInfo false) →
     ValidateServerSetup os_Stat os_IsNotExist s
     = returns (Some (not_a_directory (DocRoot s)))).
Proof.
  unfold ValidateServerSetup. split.
  - destruct (os_Stat (DocRoot s)) as [[[|]]|e]; cbn.
    + split; reflexivity.
    + split; discriminate.
    + destruct (os_IsNotExist e); split; discriminate.
  - intros ->. reflexivity.
Qed.

Lemma ValidateServerSetup_nil_iff_directory_witness :
  ValidateServerSetup (λ _, inl (mkFileInfo false)) (λ _, false)
    (mkServer "localhost:8090" "server/static-files")
  = returns (Some (not_a_directory "server/static-files")).
Proof.
  apply (ValidateServerSetup_nil_iff_directory
           (λ _, inl (mkFileInfo false)) (λ _, false)
           (mkServer "localhost:8090" "server/static-files")).
  reflexivity.
Defined.

(** X10: the other outcomes of [ValidateServerSetup].  It panics exactly
    when [os.Stat] fails with an error that [os.IsNotExist] does not
    recognise (it then calls [fi.IsDir()] on a nil [fi]); and the errors it
    returns are the not-a-directory error, exactly when the doc root is
    there and is not a directory, and the error of [os.Stat], exactly when
    [os.IsNotExist] recognises it. *)
Theorem ValidateServerSetup_outcomes
    (os_Stat : list ascii → FileInfo + error) (os_IsNotExist : error → bool)
    (s : Server) :
  (ValidateServerSetup os_Stat os_IsNotExist s = panics
   ↔ ∃ e, os_Stat (DocRoot s) = inr e ∧ os_IsNotExist e = false)
  ∧ (∀ err,
       ValidateServerSetup os_Stat os_IsNotExist s = returns (Some err)
       ↔ (err = not_a_directory (DocRoot s)
          ∧ os_Stat (DocRoot s) = inl (mkFileInfo false))
         ∨ (∃ e, err = stat_error e ∧ os_Stat (DocRoot s) = inr e
                 ∧ os_IsNotExist e = true)).
Proof.
  unfold ValidateServerSetup.
  destruct (os_Stat (DocRoot s)) as [[[|]]|e] eqn:Hstat; cbn [IsDir negb].
  - (* a directory *)
    split; [|intros err]; split; try discriminate.
    + intros (e & He & _). discriminate He.
    + intros [[_ H]|(e & _ & H & _)]; discriminate H.
  - (* there, but not a directory *)
    split; [|intros err]; split; try discriminate.
    + intros (e & He & _). discriminate He.
    + intros Herr. injection Herr as <-. left. split; reflexivity.
    + intros [[Herr _]|(e & _ & H & _)]; [rewrite Herr; reflexivity|discriminate H].
  - (* os.Stat failed *)
    destruct (os_IsNotExist e) eqn:Hne; (split; [|intros err]); split;
      try discriminate.
    + intros (e' & He' & Hne'). injection He' as <-. congruence.
    + intros Herr. injection Herr as <-. right. exists e. auto.
    + intros [[_ H]|(e' & Herr & He' & _)]; [discriminate H|].
      injection He' as <-. rewrite Herr. reflexivity.
    + intros _. exists e. auto.
    + intros _. reflexivity.
    + intros [[_ H]|(e' & _ & He' & Hne')]; [discriminate H|].
      injection He' as <-. congruence.
Qed.

Lemma ValidateServerSetup_outcomes_witness :
  ValidateServerSetup (λ _, inr (io_failure "permission denied")) (λ _, false)
    (mkServer "localhost:8090" "/root/secret")
  = panics.
Proof.
  apply (proj2 (proj1 (ValidateServerSetup_outcomes
                         (λ _, inr (io_failure "permission denied")) (λ _, false)
                         (mkServer "localhost:8090" "/root/secret")))).
  exists (io_failure "permission denied"). split; reflexivity.
Defined.

(** ** The connection loop *)

Section connection_facts.

Variable filepath_Join : list ascii → list ascii → list ascii.
Variable s : Server.
Variable SetReadDeadline : nat → option error.

Lemma Write_any (res : Response) (conn : Writer) :
  Write res conn
  = (broken conn,
     match broken conn with
     | Some _ => conn
     | None =>
         mkWriter (sent conn ++ Proto res ++ " " ++ itoa (StatusCode res) ++ " "
                     ++ default [] (statusText !! StatusCode res) ++ CRLF) None
     end).
Proof.
  destruct conn as [w0 [e|]]; [apply Write_broken|apply Write_status_line].
Qed.

Lemma Write_good (conn : Writer) :
  Write (HandleGoodRequest filepath_Join s) conn = (broken conn, answered conn 1).
Proof.
  rewrite Write_any. unfold answered. destruct (broken conn); [reflexivity|].
  cbn [HandleGoodRequest HandleOK init StatusCode Proto].
  rewrite statusText_OK. reflexivity.
Qed.

Lemma Write_bad (conn : Writer) :
  Write (HandleBadRequest (mkResponse 0 [] [])) conn
  = (broken conn,
     match broken conn with
     | Some _ => conn
     | None => mkWriter (sent conn ++ line_MethodNotAllowed) None
     end).
Proof.
  rewrite Write_any. destruct (broken conn); [reflexivity|].
  cbn [HandleBadRequest init StatusCode Proto].
  rewrite statusText_MethodNotAllowed. reflexivity.
Qed.

Lemma answered_0 (conn : Writer) : answered conn 0 = conn.
Proof.
  destruct conn as [w0 [e|]]; [reflexivity|].
  unfold answered. cbn [broken sent replicate concat]. rewrite app_nil_r. reflexivity.
Qed.

Lemma answered_S (conn : Writer) (n : nat) :
  answered (answered conn 1) n = answered conn (S n).
Proof.
  destruct conn as [w0 [e|]]; [reflexivity|].
  unfold answered. cbn [broken sent replicate concat].
  rewrite app_nil_r, <- !app_assoc. reflexivity.
Qed.

Lemma broken_answered (conn : Writer) (n : nat) : broken (answered conn n) = broken conn.
Proof. destruct conn as [w0 [e|]]; reflexivity. Qed.

Lemma length_requests_bytes_app (reqs : list (list ascii * list (list ascii)))
    (k : list ascii) :
  length reqs ≤ length (requests_bytes reqs ++ k).
Proof.
  induction reqs as [|r reqs IH]; cbn [requests_bytes foldr length]; [lia|].
  fold (requests_bytes reqs). unfold request_bytes.
  rewrite <- !app_assoc, !length_app. rewrite length_app in IH.
  cbn [length CRLF]. lia.
Qed.

(** The loop answers valid requests one by one and goes on. *)
Lemma HandleConnection_loop_requests (reqs : list (list ascii * list (list ascii))) :
  Forall valid_request reqs →
  ∀ (fuel n : nat) (k : list ascii) (f : error) (conn : Writer)
    (out : list stdout_entry) (log : list log_entry),
    (∀ i, n ≤ i < n + length reqs → SetReadDeadline i = None) →
    HandleConnection_loop filepath_Join s SetReadDeadline (length reqs + fuel) n
      (mkReader (requests_bytes reqs ++ k) f) conn out log
    = HandleConnection_loop filepath_Join s SetReadDeadline fuel (n + length reqs)
        (mkReader k f) (answered conn (length reqs))
        (out ++ requests_stdout conn reqs)
        (log ++ replicate (length reqs) (log_good_request (Some (mkRequest "GET")))).
Proof.
  induction 1 as [|[line hs] reqs [Hline Hhs] _ IH]; intros fuel n k f conn out log Hdl.
  - unfold requests_stdout, requests_bytes.
    cbn [length foldr app Nat.add replicate map concat].
    rewrite answered_0, !app_nil_r, Nat.add_0_r. reflexivity.
  - cbn [length requests_bytes foldr Nat.add]. fold (requests_bytes reqs).
    cbn [HandleConnection_loop fst snd].
    rewrite (Hdl n) by (cbn [length]; lia).
    rewrite <- app_assoc.
    rewrite (ReadRequest_whole line hs (requests_bytes reqs ++ k) f Hline Hhs).
    cbn [is_EOF is_Timeout]. rewrite Write_good.
    rewrite IH by (intros i Hi; apply Hdl; cbn [length]; lia).
    rewrite answered_S.
    replace (S n + length reqs) with (n + S (length reqs)) by lia.
    f_equal.
    + unfold requests_stdout. rewrite broken_answered. cbn [map concat fst snd].
      destruct (broken conn); rewrite <- !app_assoc; reflexivity.
    + rewrite <- app_assoc. reflexivity.
Qed.

(** A request that cannot be read ends the loop. *)
Lemma HandleConnection_loop_error (fuel n : nat) (br br' : Reader)
    (req : option Request) (e : error) (lines : list (list ascii))
    (conn : Writer) (out : list stdout_entry) (log : list log_entry) :
  SetReadDeadline n = None →
  ReadRequest br = Some ((req, Some e), br', lines) →
  HandleConnection_loop filepath_Join s SetReadDeadline (S fuel) n br conn out log
  = Some (mkServed br'
            (if quiet_end e then conn
             else match broken conn with
                  | Some _ => conn
                  | None => mkWriter (sent conn ++ line_MethodNotAllowed) None
                  end)
            true (out ++ (out_line <$> lines)) (log ++ [log_of_error e])).
Proof.
  intros Hdl Hread. cbn [HandleConnection_loop]. rewrite Hdl, Hread.
  destruct e; cbn [is_EOF is_Timeout quiet_end log_of_error]; try reflexivity;
    rewrite Write_bad; reflexivity.
Qed.

Lemma fuel_for_requests (reqs : list (list ascii * list (list ascii))) (k : list ascii) :
  ∃ m, S (length (requests_bytes reqs ++ k)) = length reqs + S m.
Proof.
  pose proof (length_requests_bytes_app reqs k).
  exists (length (requests_bytes reqs ++ k) - length reqs). lia.
Qed.

End connection_facts.

Lemma HandleConnection_requests_then_error
    (filepath_Join : list ascii → list ascii → list ascii) (s : Server)
    (SetReadDeadline : nat → option error)
    (reqs : list (list ascii * list (list ascii))) (k : list ascii) (f : error)
    (conn : Writer) (req : option Request) (e : error) (br' : Reader)
    (lines : list (list ascii)) :
  Forall valid_request reqs →
  (∀ i, i ≤ length reqs → SetReadDeadline i = None) →
  ReadRequest (mkReader k f) = Some ((req, Some e), br', lines) →
  HandleConnection filepath_Join s SetReadDeadline
    (mkReader (requests_bytes reqs ++ k) f) conn
  = Some (mkServed br'
            (if quiet_end e then answered conn (length reqs)
             else match broken conn with
                  | Some _ => answered conn (length reqs)
                  | None => mkWriter (sent (answered conn (length reqs))
                                        ++ line_MethodNotAllowed) None
                  end)
            true
            (requests_stdout conn reqs ++ (out_line <$> lines))
            (replicate (length reqs) (log_good_request (Some (mkRequest "GET")))
               ++ [log_of_error e])).
Proof.
  intros Hreqs Hdl Hread. unfold HandleConnection. cbn [pending].
  destruct (fuel_for_requests reqs k) as [m ->].
  rewrite (HandleConnection_loop_requests filepath_Join s SetReadDeadline reqs Hreqs)
    by (intros i Hi; apply Hdl; lia).
  rewrite (HandleConnection_loop_error filepath_Join s SetReadDeadline
             m (0 + length reqs) _ br' req e lines); [|apply Hdl; lia|exact Hread].
  rewrite broken_answered. reflexivity.
Qed.

Lemma ReadRequest_rejected (line rest : list ascii) (f e : error) :
  strings.Index line CRLF = None → rejection line = Some e →
  ReadRequest (mkReader (line ++ CRLF ++ rest) f)
  = Some ((None, Some e), mkReader rest f, [])
  ∧ quiet_end e = false ∧ log_of_error e = log_bad_request e.
Proof.
  intros Hline. rewrite (ReadRequest_start_line line rest f Hline).
  unfold rejection, after_start_line.
  destruct (parseRequestLine line) as [method [e'|]].
  - intros [= <-]. split_and!; reflexivity.
  - destruct (validMethod method); [discriminate|].
    intros [= <-]. split_and!; reflexivity.
Qed.

(** X11: keep-alive.  On a connection that sends [n] valid requests and
    then ends, or goes silent until the deadline passes, even in the middle
    of a line, [HandleConnection] answers each request with the line
    "HTTP/1.1 200 OK", sends nothing else (no 405 for the line that was cut),
    and closes the connection. *)
Theorem HandleConnection_keep_alive
    (filepath_Join : list ascii → list ascii → list ascii) (s : Server)
    (SetReadDeadline : nat → option error)
    (reqs : list (list ascii * list (list ascii))) (tail w0 : list ascii) (f : error) :
  Forall valid_request reqs →
  (∀ i, SetReadDeadline i = None) →
  strings.Index tail CRLF = None →
  quiet_end f = true →
  HandleConnection filepath_Join s SetReadDeadline
    (mkReader (requests_bytes reqs ++ tail) f) (mkWriter w0 None)
  = Some (mkServed (mkReader [] f)
            (mkWriter (w0 ++ concat (replicate (length reqs) line_OK)) None)
            true
            (requests_stdout (mkWriter w0 None) reqs)
            (replicate (length reqs) (log_good_request (Some (mkRequest "GET")))
               ++ [log_of_error f])).
Proof.
  intros Hreqs Hdl Htail Hquiet.
  rewrite (HandleConnection_requests_then_error filepath_Join s SetReadDeadline
             reqs tail f (mkWriter w0 None) None f (mkReader [] f) []); [|exact Hreqs|auto|].
  - rewrite Hquiet, app_nil_r. reflexivity.
  - rewrite ReadRequest_unfold. unfold line_of. rewrite Htail. reflexivity.
Qed.

Lemma HandleConnection_keep_alive_witness :
  HandleConnection (λ d n, d ++ "/" ++ n) (mkServer "localhost:8090" "static")
    (λ _, None)
    (mkReader (requests_bytes
                 [("GET / HTTP/1.1" : list ascii, ["Host: a" : list ascii]);
                  ("GET /x HTTP/1.1" : list ascii, [])] ++ "GET /y HT") net_Timeout)
    (mkWriter [] None)
  = Some (mkServed (mkReader [] net_Timeout)
            (mkWriter (line_OK ++ line_OK) None) true
            [out_line ("Read line from request Host: a" ++ [LF])]
            [log_good_request (Some (mkRequest "GET"));
             log_good_request (Some (mkRequest "GET")); log_timed_out]).
Proof.
  rewrite (HandleConnection_keep_alive (λ d n, d ++ "/" ++ n)
             (mkServer "localhost:8090" "static") (λ _, None)
             [("GET / HTTP/1.1" : list ascii, ["Host: a" : list ascii]);
              ("GET /x HTTP/1.1" : list ascii, [])] "GET /y HT" [] net_Timeout).
  - vm_compute. reflexivity.
  - repeat constructor; try discriminate; vm_compute; reflexivity.
  - reflexivity.
  - vm_compute. reflexivity.
  - reflexivity.
Defined.

(** X12: when the source fails with an error that is neither the end of
    the stream nor a timeout, the connection is treated like one that sent a
    bad request: after the answers to the [n] valid requests, the line
    "HTTP/1.1 405 Method Not Allowed" is sent, and the connection closed. *)
Theorem HandleConnection_source_failure
    (filepath_Join : list ascii → list ascii → list ascii) (s : Server)
    (SetReadDeadline : nat → option error)
    (reqs : list (list ascii * list (list ascii))) (tail w0 : list ascii) (f : error) :
  Forall valid_request reqs →
  (∀ i, SetReadDeadline i = None) →
  strings.Index tail CRLF = None →
  quiet_end f = false →
  HandleConnection filepath_Join s SetReadDeadline
    (mkReader (requests_bytes reqs ++ tail) f) (mkWriter w0 None)
  = Some (mkServed (mkReader [] f)
            (mkWriter (w0 ++ concat (replicate (length reqs) line_OK)
                          ++ line_MethodNotAllowed) None)
            true
            (requests_stdout (mkWriter w0 None) reqs)
            (replicate (length reqs) (log_good_request (Some (mkRequest "GET")))
               ++ [log_of_error f])).
Proof.
  intros Hreqs Hdl Htail Hquiet.
  rewrite (HandleConnection_requests_then_error filepath_Join s SetReadDeadline
             reqs tail f (mkWriter w0 None) None f (mkReader [] f) []); [|exact Hreqs|auto|].
  - rewrite Hquiet, app_nil_r. unfold answered. cbn [broken sent].
    rewrite <- app_assoc. reflexivity.
  - rewrite ReadRequest_unfold. unfold line_of. rewrite Htail. reflexivity.
Qed.

Lemma HandleConnection_source_failure_witness :
  HandleConnection (λ d n, d ++ "/" ++ n) (mkServer "localhost:8090" "static")
    (λ _, None)
    (mkReader (requests_bytes [("GET / HTTP/1.1" : list ascii, [])] ++ [])
       (io_failure "connection reset by peer"))
    (mkWriter [] None)
  = Some (mkServed (mkReader [] (io_failure "connection reset by peer"))
            (mkWriter (line_OK ++ line_MethodNotAllowed) None) true []
            [log_good_request (Some (mkRequest "GET"));
             log_bad_request (io_failure "connection reset by peer")]).
Proof.
  rewrite (HandleConnection_source_failure (λ d n, d ++ "/" ++ n)
             (mkServer "localhost:8090" "static") (λ _, None)
             [("GET / HTTP/1.1" : list ascii, [])] [] []
             (io_failure "connection reset by peer")).
  - vm_compute. reflexivity.
  - repeat constructor; try discriminate; vm_compute; reflexivity.
  - reflexivity.
  - reflexivity.
  - reflexivity.
Defined.

(** X13: a start line that is rejected (malformed, or with a method other
    than "GET") ends the connection: after the answers to the valid
    requests before it, the line "HTTP/1.1 405 Method Not Allowed" is sent,
    the connection is closed, and nothing after that start line is read:
    its headers and any request behind it stay unread. *)
Theorem HandleConnection_bad_request
    (filepath_Join : list ascii → list ascii → list ascii) (s : Server)
    (SetReadDeadline : nat → option error)
    (reqs : list (list ascii * list (list ascii)))
    (line rest w0 : list ascii) (f e : error) :
  Forall valid_request reqs →
  (∀ i, SetReadDeadline i = None) →
  strings.Index line CRLF = None →
  rejection line = Some e →
  HandleConnection filepath_Join s SetReadDeadline
    (mkReader (requests_bytes reqs ++ line ++ CRLF ++ rest) f) (mkWriter w0 None)
  = Some (mkServed (mkReader rest f)
            (mkWriter (w0 ++ concat (replicate (length reqs) line_OK)
                          ++ line_MethodNotAllowed) None)
            true
            (requests_stdout (mkWriter w0 None) reqs)
            (replicate (length reqs) (log_good_request (Some (mkRequest "GET")))
               ++ [log_bad_request e])).
Proof.
  intros Hreqs Hdl Hline Hrej.
  destruct (ReadRequest_rejected line rest f e Hline Hrej) as (Hread & Hquiet & Hlog).
  rewrite (HandleConnection_requests_then_error filepath_Join s SetReadDeadline
             reqs _ f (mkWriter w0 None) None e (mkReader rest f) [] Hreqs);
    [|auto|exact Hread].
  rewrite Hquiet, Hlog, app_nil_r. unfold answered. cbn [broken sent].
  rewrite <- app_assoc. reflexivity.
Qed.

Lemma HandleConnection_bad_request_witness :
  HandleConnection (λ d n, d ++ "/" ++ n) (mkServer "localhost:8090" "static")
    (λ _, None)
    (mkReader (requests_bytes [("GET / HTTP/1.1" : list ascii, [])]
               ++ "POST / HTTP/1.1" ++ CRLF ++ "Host: a" ++ CRLF ++ CRLF) io_EOF)
    (mkWriter [] None)
  = Some (mkServed (mkReader ("Host: a" ++ CRLF ++ CRLF) io_EOF)
            (mkWriter (line_OK ++ line_MethodNotAllowed) None) true []
            [log_good_request (Some (mkRequest "GET"));
             log_bad_request (badStringError "invalid method" "POST")]).
Proof.
  rewrite (HandleConnection_bad_request (λ d n, d ++ "/" ++ n)
             (mkServer "localhost:8090" "static") (λ _, None)
             [("GET / HTTP/1.1" : list ascii, [])]
             "POST / HTTP/1.1" ("Host: a" ++ CRLF ++ CRLF) [] io_EOF
             (badStringError "invalid method" "POST")).
  - vm_compute. reflexivity.
  - repeat constructor; try discriminate; vm_compute; reflexivity.
  - reflexivity.
  - vm_compute. reflexivity.
  - vm_compute. reflexivity.
Defined.

(** X14: when [conn.SetReadDeadline] fails, the connection is closed at
    once: the valid requests served before are answered, and the bytes that
    were waiting are left unread, with no answer for them. *)
Theorem HandleConnection_deadline_failure
    (filepath_Join : list ascii → list ascii → list ascii) (s : Server)
    (SetReadDeadline : nat → option error)
    (reqs : list (list ascii * list (list ascii))) (k w0 : list ascii) (f e : error) :
  Forall valid_request reqs →
  (∀ i, i < length reqs → SetReadDeadline i = None) →
  SetReadDeadline (length reqs) = Some e →
  HandleConnection filepath_Join s SetReadDeadline
    (mkReader (requests_bytes reqs ++ k) f) (mkWriter w0 None)
  = Some (mkServed (mkReader k f)
            (mkWriter (w0 ++ concat (replicate (length reqs) line_OK)) None)
            true
            (requests_stdout (mkWriter w0 None) reqs)
            (replicate (length reqs) (log_good_request (Some (mkRequest "GET")))
               ++ [log_deadline_failed])).
Proof.
  intros Hreqs Hok Hfail. unfold HandleConnection. cbn [pending].
  destruct (fuel_for_requests reqs k) as [m ->].
  rewrite (HandleConnection_loop_requests filepath_Join s SetReadDeadline reqs Hreqs)
    by (intros i Hi; apply Hok; lia).
  cbn [HandleConnection_loop Nat.add]. rewrite Hfail. reflexivity.
Qed.

Lemma HandleConnection_deadline_failure_witness :
  HandleConnection (λ d n, d ++ "/" ++ n) (mkServer "localhost:8090" "static")
    (λ i, if decide (i = 1) then Some (io_failure "use of closed network connection") else None)
    (mkReader (requests_bytes [("GET / HTTP/1.1" : list ascii, [])]
               ++ "GET / HTTP/1.1" ++ CRLF ++ CRLF) io_EOF)
    (mkWriter [] None)
  = Some (mkServed (mkReader ("GET / HTTP/1.1" ++ CRLF ++ CRLF) io_EOF)
            (mkWriter line_OK None) true []
            [log_good_request (Some (mkRequest "GET")); log_deadline_failed]).
Proof.
  rewrite (HandleConnection_deadline_failure (λ d n, d ++ "/" ++ n)
             (mkServer "localhost:8090" "static")
             (λ i, if decide (i = 1) then Some (io_failure "use of closed network connection")
                   else None)
             [("GET / HTTP/1.1" : list ascii, [])] ("GET / HTTP/1.1" ++ CRLF ++ CRLF) []
             io_EOF (io_failure "use of closed network connection")).
  - vm_compute. reflexivity.
  - repeat constructor; try discriminate; vm_compute; reflexivity.
  - intros i Hi. cbn [length] in Hi. destruct i; [reflexivity|lia].
  - reflexivity.
Defined.

(** X15: a writer that fails does not end the connection.  Every valid
    request is still read and logged as served, the error of each write is
    printed on standard output after the request's header lines, nothing is
    sent, not even the 405 line when the source fails in the end, and the
    loop only stops when no further request can be read. *)
Theorem HandleConnection_broken_writer
    (filepath_Join : list ascii → list ascii → list ascii) (s : Server)
    (SetReadDeadline : nat → option error)
    (reqs : list (list ascii * list (list ascii))) (tail w0 : list ascii)
    (f we : error) :
  Forall valid_request reqs →
  (∀ i, SetReadDeadline i = None) →
  strings.Index tail CRLF = None →
  HandleConnection filepath_Join s SetReadDeadline
    (mkReader (requests_bytes reqs ++ tail) f) (mkWriter w0 (Some we))
  = Some (mkServed (mkReader [] f) (mkWriter w0 (Some we)) true
            (concat (map (λ r, (out_line <$> printed r.2) ++ [out_error we]) reqs))
            (replicate (length reqs) (log_good_request (Some (mkRequest "GET")))
               ++ [log_of_error f])).
Proof.
  intros Hreqs Hdl Htail.
  rewrite (HandleConnection_requests_then_error filepath_Join s SetReadDeadline
             reqs tail f (mkWriter w0 (Some we)) None f (mkReader [] f) []); [|exact Hreqs|auto|].
  - rewrite app_nil_r. destruct (quiet_end f); reflexivity.
  - rewrite ReadRequest_unfold. unfold line_of. rewrite Htail. reflexivity.
Qed.

Lemma HandleConnection_broken_writer_witness :
  HandleConnection (λ d n, d ++ "/" ++ n) (mkServer "localhost:8090" "static")
    (λ _, None)
    (mkReader (requests_bytes
                 [("GET / HTTP/1.1" : list ascii, ["Host: a" : list ascii]);
                  ("GET /x HTTP/1.1" : list ascii, [])] ++ []) io_EOF)
    (mkWriter [] (Some (io_failure "broken pipe")))
  = Some (mkServed (mkReader [] io_EOF) (mkWriter [] (Some (io_failure "broken pipe"))) true
            [out_line ("Read line from request Host: a" ++ [LF]);
             out_error (io_failure "broken pipe"); out_error (io_failure "broken pipe")]
            [log_good_request (Some (mkRequest "GET"));
             log_good_request (Some (mkRequest "GET")); log_closed_by_peer]).
Proof.
  rewrite (HandleConnection_broken_writer (λ d n, d ++ "/" ++ n)
             (mkServer "localhost:8090" "static") (λ _, None)
             [("GET / HTTP/1.1" : list ascii, ["Host: a" : list ascii]);
              ("GET /x HTTP/1.1" : list ascii, [])] [] [] io_EOF (io_failure "broken pipe")).
  - vm_compute. reflexivity.
  - repeat constructor; try discriminate; vm_compute; reflexivity.
  - reflexivity.
  - reflexivity.
Defined.

Lemma HandleConnection_loop_shape
    (filepath_Join : list ascii → list ascii → list ascii) (s : Server)
    (SetReadDeadline : nat → option error) (fuel : nat) :
  ∀ (n : nat) (data : list ascii) (f : error) (w0 : list ascii)
    (out : list stdout_entry) (log : list log_entry),
    length data < fuel →
    ∃ served k tail,
      HandleConnection_loop filepath_Join s SetReadDeadline fuel n
        (mkReader data f) (mkWriter w0 None) out log = Some served
      ∧ served_closed served = true
      ∧ served_writer served = mkWriter (w0 ++ concat (replicate k line_OK) ++ tail) None
      ∧ (tail = [] ∨ tail = line_MethodNotAllowed)
      ∧ pending (served_reader served) `suffix_of` data
      ∧ length (served_log served) = length log + S k.
Proof.
  induction fuel as [|fuel IH]; intros n data f w0 out log Hlen; [lia|].
  cbn [HandleConnection_loop].
  destruct (SetReadDeadline n) as [de|].
  { eexists _, 0, []. split_and!; [reflexivity..| | | |].
    - cbn. rewrite app_nil_r. reflexivity.
    - by left.
    - reflexivity.
    - cbn. rewrite length_app. cbn. lia. }
  destruct (ReadRequest_progress data f) as (req & err & rest & lines & -> & Hsuf & Hlt).
  destruct err as [e|].
  - assert (∃ tail, (if quiet_end e then mkWriter w0 None
                     else mkWriter (w0 ++ line_MethodNotAllowed) None)
                    = mkWriter (w0 ++ concat (replicate 0 line_OK) ++ tail) None
                    ∧ (tail = [] ∨ tail = line_MethodNotAllowed)) as (tail & Hw & Htail).
    { destruct (quiet_end e).
      - exists []. cbn. rewrite app_nil_r. auto.
      - exists line_MethodNotAllowed. cbn. auto. }
    exists (mkServed (mkReader rest f)
              (if quiet_end e then mkWriter w0 None
               else mkWriter (w0 ++ line_MethodNotAllowed) None)
              true (out ++ (out_line <$> lines)) (log ++ [log_of_error e])), 0, tail.
    split_and!; [|reflexivity|exact Hw|exact Htail|exact Hsuf|].
    + destruct e; cbn [is_EOF is_Timeout quiet_end log_of_error]; try reflexivity;
        rewrite Write_bad; reflexivity.
    + cbn. rewrite length_app. cbn. lia.
  - cbn [is_EOF is_Timeout]. rewrite Write_good. unfold answered. cbn [broken sent].
    specialize (Hlt eq_refl).
    destruct (IH (S n) rest f (w0 ++ concat (replicate 1 line_OK))
                (out ++ (out_line <$> lines)) (log ++ [log_good_request req]))
      as (served & k & tail & -> & Hclosed & Hw & Htail & Hsuf' & Hlog); [lia|].
    exists served, (S k), tail.
    split_and!; [reflexivity|exact Hclosed| |exact Htail| |].
    + rewrite Hw. cbn [replicate concat]. rewrite app_nil_r, <- !app_assoc. reflexivity.
    + etrans; eassumption.
    + rewrite Hlog, length_app. cbn. lia.
Qed.

(** X16: whatever the peer sends and however the source ends,
    [HandleConnection] returns with the connection closed, and what it has
    sent (to a writer that works) is the line "HTTP/1.1 200 OK" some number
    of times, then at most one line "HTTP/1.1 405 Method Not Allowed", and
    nothing after it; the log has one entry for each request answered and
    one for the way the connection ended. *)
Theorem HandleConnection_answers
    (filepath_Join : list ascii → list ascii → list ascii) (s : Server)
    (SetReadDeadline : nat → option error) (br : Reader) (w0 : list ascii) :
  ∃ served k tail,
    HandleConnection filepath_Join s SetReadDeadline br (mkWriter w0 None) = Some served
    ∧ served_closed served = true
    ∧ served_writer served = mkWriter (w0 ++ concat (replicate k line_OK) ++ tail) None
    ∧ (tail = [] ∨ tail = line_MethodNotAllowed)
    ∧ pending (served_reader served) `suffix_of` pending br
    ∧ length (served_log served) = S k.
Proof.
  destruct br as [data f]. unfold HandleConnection. cbn [pending].
  destruct (HandleConnection_loop_shape filepath_Join s SetReadDeadline
              (S (length data)) 0 data f w0 [] [])
    as (served & k & tail & Heq & H); [lia|].
  exists served, k, tail. split; [exact Heq|exact H].
Qed.
